(** * File download handler and request dispatcher

    A shallow embedding of [file-request-handler.js] (class
    [FileRequestHandler]) and of the Lambda entry point that dispatches an
    inbound event to the file flow or to the image flow, followed by the
    properties of the specification that concern them.

    JavaScript strings are sequences of UTF-16 code units; exceptions are an
    explicit outcome; the object store is a function from a (bucket, key)
    pair to an object or an error, and every call to it is recorded. *)

From Stdlib Require Import ZArith NArith List String Ascii Bool Lia DecimalString.
From stdpp Require Import gmap.

Local Open Scope N_scope.

(** ** Strings *)

(** A code unit and a string of the JavaScript runtime. *)
Abbreviation jschar := N (only parsing).
Abbreviation jsstring := (list N) (only parsing).

Definition chr (a : ascii) : jschar := N_of_ascii a.

(** An ASCII literal as a JavaScript string. *)
Fixpoint str (s : string) : jsstring :=
  match s with
  | EmptyString => []
  | String a r => chr a :: str r
  end.
Arguments str _%_string.

(** [t] is a prefix of [s]. *)
Fixpoint starts_with (t s : jsstring) : bool :=
  match t, s with
  | [], _ => true
  | _ :: _, [] => false
  | a :: t', b :: s' => (a =? b) && starts_with t' s'
  end.

(** [String.prototype.includes]: [t] occurs somewhere in [s]. *)
Fixpoint includes (s t : jsstring) : bool :=
  starts_with t s ||
  match s with
  | [] => false
  | _ :: s' => includes s' t
  end.

(** [String.prototype.split] with a one-character separator: the pieces
    between the separators, an empty string giving one empty piece. *)
Fixpoint split (sep : jschar) (s : jsstring) : list jsstring :=
  match s with
  | [] => [[]]
  | c :: r =>
      if c =? sep then [] :: split sep r
      else match split sep r with
           | [] => [[c]]
           | h :: t => (c :: h) :: t
           end
  end.

(** [Array.prototype.includes] on an array of strings. *)
Definition array_includes (a : list jsstring) (x : jsstring) : bool :=
  existsb (fun y => bool_decide (y = x)) a.

(** ** Regular expressions

    The fragment of the regular expression language that the source uses:
    literal characters, [\s], [\b], [^], sequence, alternation, the greedy
    [+] and groups (whose captures no replacement string refers to). *)

Inductive regex : Type :=
| Eps                       (* the empty alternative *)
| Chr (c : jschar)          (* a literal character, escaped or not *)
| Space                     (* \s *)
| WordB                     (* \b *)
| Bol                       (* ^ *)
| Seq (r1 r2 : regex)
| Alt (r1 r2 : regex)       (* r1|r2 *)
| Plus (r : regex)          (* r+ *)
| Grp (r : regex).          (* (r) *)

(** A literal run of characters. *)
Fixpoint lit (l : jsstring) : regex :=
  match l with
  | [] => Eps
  | c :: l' => Seq (Chr c) (lit l')
  end.

(** [\w] without the [i] and [u] flags: [A-Za-z0-9_]. *)
Definition is_word (c : jschar) : bool :=
  ((65 <=? c) && (c <=? 90)) || ((97 <=? c) && (c <=? 122)) ||
  ((48 <=? c) && (c <=? 57)) || (c =? 95).

(** [\s]: the white space and line terminator code units. *)
Definition is_space (c : jschar) : bool :=
  ((9 <=? c) && (c <=? 13)) || (c =? 32) || (c =? 160) || (c =? 5760) ||
  ((8192 <=? c) && (c <=? 8202)) || (c =? 8232) || (c =? 8233) ||
  (c =? 8239) || (c =? 8287) || (c =? 12288) || (c =? 65279).

(** A position in the subject: the text before it, last character first,
    and the text after it. *)
Definition pos : Type := jsstring * jsstring.

Definition word_at (s : jsstring) : bool :=
  match s with
  | [] => false
  | c :: _ => is_word c
  end.

(** The iterations of [r*] after the first one, greedy: another iteration
    that consumes something is tried before stopping. *)
Fixpoint star_iter (f : pos -> list pos) (fuel : nat) (p : pos) : list pos :=
  match fuel with
  | O => [p]
  | S k =>
      flat_map (fun q => if (length (snd q) <? length (snd p))%nat
                         then star_iter f k q else []) (f p) ++ [p]
  end.

(** The backtracking matcher: every position at which a match of [r] that
    starts at [p] can end, in the order in which the engine tries them. *)
Fixpoint rmatch (r : regex) (p : pos) : list pos :=
  match r with
  | Eps => [p]
  | Chr c =>
      match snd p with
      | x :: a => if x =? c then [(x :: fst p, a)] else []
      | [] => []
      end
  | Space =>
      match snd p with
      | x :: a => if is_space x then [(x :: fst p, a)] else []
      | [] => []
      end
  | WordB => if xorb (word_at (fst p)) (word_at (snd p)) then [p] else []
  | Bol => match fst p with [] => [p] | _ :: _ => [] end
  | Seq r1 r2 => flat_map (rmatch r2) (rmatch r1 p)
  | Alt r1 r2 => rmatch r1 p ++ rmatch r2 p
  | Plus r0 =>
      flat_map (fun q => star_iter (rmatch r0) (length (snd q)) q) (rmatch r0 p)
  | Grp r0 => rmatch r0 p
  end.

(** The match the engine reports at [p], if any: the first one. *)
Definition exec_at (r : regex) (p : pos) : option pos := head (rmatch r p).

(** [s.replace(r, repl)] for [r] without the [g] flag: the first match from
    the left is replaced and the rest of the subject is kept. *)
Fixpoint replace_first (r : regex) (repl before after : jsstring) : jsstring :=
  match exec_at r (before, after) with
  | Some q => repl ++ snd q
  | None =>
      match after with
      | [] => []
      | c :: a => c :: replace_first r repl (c :: before) a
      end
  end.

(** [s.replace(r, repl)] for [r] with the [g] flag. The subject is scanned
    from the left; [skip] counts the characters that still belong to the
    last match. After an empty match the scan resumes one character on. *)
Fixpoint replace_all (r : regex) (repl : jsstring) (skip : nat)
    (before after : jsstring) : jsstring :=
  match after with
  | [] =>
      match skip, exec_at r (before, after) with
      | O, Some _ => repl
      | _, _ => []
      end
  | c :: a =>
      match skip with
      | S k => replace_all r repl k (c :: before) a
      | O =>
          match exec_at r (before, after) with
          | Some q =>
              match (length after - length (snd q))%nat with
              | O => repl ++ c :: replace_all r repl O (c :: before) a
              | S k => repl ++ replace_all r repl k (c :: before) a
              end
          | None => c :: replace_all r repl O (c :: before) a
          end
      end
  end.

Definition replace (r : regex) (repl s : jsstring) : jsstring :=
  replace_first r repl [] s.

Definition replace_g (r : regex) (repl s : jsstring) : jsstring :=
  replace_all r repl O [] s.

(** ** [decodeURIComponent]

    The escapes [%XX] are read first; the bytes they denote must then form
    well-formed UTF-8, which is re-encoded as UTF-16. [None] stands for the
    [URIError] that the runtime throws. *)

Definition hex_val (c : jschar) : option N :=
  if (48 <=? c) && (c <=? 57) then Some (c - 48)
  else if (65 <=? c) && (c <=? 70) then Some (c - 55)
  else if (97 <=? c) && (c <=? 102) then Some (c - 87)
  else None.

Inductive tok : Type :=
| TChar (c : jschar)        (* a character that stands for itself *)
| TByte (b : N).            (* the byte of an escape %XX *)

Definition percent : jschar := 37.

Fixpoint unescape (s : jsstring) : option (list tok) :=
  match s with
  | [] => Some []
  | c :: r =>
      if c =? percent then
        match r with
        | h1 :: h2 :: r' =>
            match hex_val h1, hex_val h2 with
            | Some a, Some b => cons (TByte (16 * a + b)) <$> unescape r'
            | _, _ => None
            end
        | _ => None
        end
      else cons (TChar c) <$> unescape r
  end.

(** A continuation byte, [10xxxxxx]. *)
Definition cont (b : N) : bool := (128 <=? b) && (b <=? 191).

Definition valid3 (b b1 b2 : N) : bool :=
  (if b =? 224 then (160 <=? b1) && (b1 <=? 191)
   else if b =? 237 then (128 <=? b1) && (b1 <=? 159)
   else cont b1) && cont b2.

Definition valid4 (b b1 b2 b3 : N) : bool :=
  (if b =? 240 then (144 <=? b1) && (b1 <=? 191)
   else if b =? 244 then (128 <=? b1) && (b1 <=? 143)
   else cont b1) && cont b2 && cont b3.

(** The UTF-16 encoding of a code point. *)
Definition utf16 (v : N) : jsstring :=
  if v <? 65536 then [v]
  else [55296 + (v - 65536) / 1024; 56320 + (v - 65536) mod 1024].

Fixpoint utf8_decode (ts : list tok) : option jsstring :=
  match ts with
  | [] => Some []
  | TChar c :: r => cons c <$> utf8_decode r
  | TByte b :: r =>
      if b <? 128 then cons b <$> utf8_decode r
      else if (194 <=? b) && (b <=? 223) then
        match r with
        | TByte b1 :: r1 =>
            if cont b1
            then app (utf16 ((b - 192) * 64 + (b1 - 128))) <$> utf8_decode r1
            else None
        | _ => None
        end
      else if (224 <=? b) && (b <=? 239) then
        match r with
        | TByte b1 :: TByte b2 :: r2 =>
            if valid3 b b1 b2
            then app (utf16 ((b - 224) * 4096 + (b1 - 128) * 64 + (b2 - 128)))
                   <$> utf8_decode r2
            else None
        | _ => None
        end
      else if (240 <=? b) && (b <=? 244) then
        match r with
        | TByte b1 :: TByte b2 :: TByte b3 :: r3 =>
            if valid4 b b1 b2 b3
            then app (utf16 ((b - 240) * 262144 + (b1 - 128) * 4096
                             + (b2 - 128) * 64 + (b3 - 128)))
                   <$> utf8_decode r3
            else None
        | _ => None
        end
      else None
  end.

Definition decodeURIComponent (s : jsstring) : option jsstring :=
  unescape s ≫= utf8_decode.

(** ** Base64

    [buffer.toString('base64')]: three bytes give four characters, the last
    group is padded with [=]. *)

Definition b64_char (i : N) : jschar :=
  if i <? 26 then 65 + i
  else if i <? 52 then 97 + (i - 26)
  else if i <? 62 then 48 + (i - 52)
  else if i =? 62 then 43 else 47.

Definition pad : jschar := 61.

Fixpoint base64 (bs : list N) : jsstring :=
  match bs with
  | [] => []
  | [a] =>
      [b64_char (N.shiftr a 2); b64_char (N.shiftl (N.land a 3) 4); pad; pad]
  | [a; b] =>
      [b64_char (N.shiftr a 2);
       b64_char (N.lor (N.shiftl (N.land a 3) 4) (N.shiftr b 4));
       b64_char (N.shiftl (N.land b 15) 2); pad]
  | a :: b :: c :: r =>
      b64_char (N.shiftr a 2)
      :: b64_char (N.lor (N.shiftl (N.land a 3) 4) (N.shiftr b 4))
      :: b64_char (N.lor (N.shiftl (N.land b 15) 2) (N.shiftr c 6))
      :: b64_char (N.land c 63)
      :: base64 r
  end.

(** ** Values and thrown values *)

Inductive jsval : Type :=
| JUndefined
| JNull
| JBool (b : bool)
| JNum (n : Z)
| JStr (s : jsstring).

#[export] Instance jsval_eq_dec : EqDecision jsval.
Proof. solve_decision. Defined.

(** The test that [if (v)], [v ? a : b] and [v && w] perform. *)
Definition truthy (v : jsval) : bool :=
  match v with
  | JUndefined | JNull => false
  | JBool b => b
  | JNum n => negb (n =? 0)%Z
  | JStr s => match s with [] => false | _ :: _ => true end
  end.

(** What a [throw] carries: an object literal [{status, code, message}], or
    an instance of [Error], which has a message and no enumerable property.
    Every [throw] of the two files and every exception of the runtime that
    they can raise is of one of these two kinds. *)
Inductive thrown : Type :=
| Obj (status code message : jsval)
| ErrorInst (msg : jsstring).

(** [err.status] *)
Definition status_of (e : thrown) : jsval :=
  match e with
  | Obj s _ _ => s
  | ErrorInst _ => JUndefined
  end.

(** [err.code] *)
Definition code_of (e : thrown) : jsval :=
  match e with
  | Obj _ c _ => c
  | ErrorInst _ => JUndefined
  end.

(** [err.message] *)
Definition message_of (e : thrown) : jsval :=
  match e with
  | Obj _ _ m => m
  | ErrorInst m => JStr m
  end.

(** ** [ToString] and [JSON.stringify]

    Numbers are the integers, which print in decimal (below 10^21, which
    covers every status). *)

Definition number_to_string (n : Z) : jsstring :=
  str (NilZero.string_of_int (Z.to_int n)).

(** The conversion that [+] applies to a value next to a string. *)
Definition to_string (v : jsval) : jsstring :=
  match v with
  | JUndefined => str "undefined"
  | JNull => str "null"
  | JBool true => str "true"
  | JBool false => str "false"
  | JNum n => number_to_string n
  | JStr s => s
  end.

Definition hex_digit (d : N) : jschar :=
  if d <? 10 then 48 + d else 87 + d.

(** [\uXXXX], in lower case. *)
Definition unicode_escape (c : jschar) : jsstring :=
  [92; 117; hex_digit (c / 4096 mod 16); hex_digit (c / 256 mod 16);
   hex_digit (c / 16 mod 16); hex_digit (c mod 16)].

Definition is_high_surrogate (c : jschar) : bool := (55296 <=? c) && (c <=? 56319).
Definition is_low_surrogate (c : jschar) : bool := (56320 <=? c) && (c <=? 57343).

(** The body of a quoted JSON string: the short escapes, [\uXXXX] for the
    other control characters and for a surrogate that has no partner. *)
Fixpoint json_escape (s : jsstring) : jsstring :=
  match s with
  | [] => []
  | c :: r =>
      if c =? 8 then str "\b" ++ json_escape r
      else if c =? 9 then str "\t" ++ json_escape r
      else if c =? 10 then str "\n" ++ json_escape r
      else if c =? 12 then str "\f" ++ json_escape r
      else if c =? 13 then str "\r" ++ json_escape r
      else if c =? 34 then [92; 34] ++ json_escape r
      else if c =? 92 then [92; 92] ++ json_escape r
      else if c <? 32 then unicode_escape c ++ json_escape r
      else if is_high_surrogate c then
        match r with
        | d :: r' =>
            if is_low_surrogate d then c :: d :: json_escape r'
            else unicode_escape c ++ json_escape r
        | [] => unicode_escape c
        end
      else if is_low_surrogate c then unicode_escape c ++ json_escape r
      else c :: json_escape r
  end.

Definition json_quote (s : jsstring) : jsstring := [34] ++ json_escape s ++ [34].

(** A property value; [None] for [undefined], whose property is left out. *)
Definition json_value (v : jsval) : option jsstring :=
  match v with
  | JUndefined => None
  | JNull => Some (str "null")
  | JBool true => Some (str "true")
  | JBool false => Some (str "false")
  | JNum n => Some (number_to_string n)
  | JStr s => Some (json_quote s)
  end.

Fixpoint json_members (props : list (jsstring * jsval)) : list jsstring :=
  match props with
  | [] => []
  | (k, v) :: r =>
      match json_value v with
      | Some t => (json_quote k ++ str ":" ++ t) :: json_members r
      | None => json_members r
      end
  end.

Fixpoint join (sep : jsstring) (l : list jsstring) : jsstring :=
  match l with
  | [] => []
  | [x] => x
  | x :: r => x ++ sep ++ join sep r
  end.

(** [JSON.stringify] of an object with the enumerable properties [props]. *)
Definition json_object (props : list (jsstring * jsval)) : jsstring :=
  str "{" ++ join (str ",") (json_members props) ++ str "}".

(** [JSON.stringify(err)] *)
Definition JSON_stringify (e : thrown) : jsstring :=
  match e with
  | Obj s c m => json_object [(str "status", s); (str "code", c); (str "message", m)]
  | ErrorInst _ => json_object []
  end.

(** ** The environment, the object store and the inbound event *)

(** [process.env]; [None] is a variable that is not set. *)
Record Env : Type := {
  SOURCE_BUCKETS : option jsstring;
  ENABLE_DEFAULT_FALLBACK_IMAGE : option jsstring;
  DEFAULT_FALLBACK_IMAGE_BUCKET : option jsstring;
  DEFAULT_FALLBACK_IMAGE_KEY : option jsstring;
  CORS_ENABLED : option jsstring;
  CORS_ORIGIN : option jsstring
}.

(** [process.env.X] as a value. *)
Definition env_val (o : option jsstring) : jsval :=
  match o with
  | Some s => JStr s
  | None => JUndefined
  end.

Module S3.
(** What [getObject] resolves to. *)
Record object : Type := {
  Body : list N;
  ContentType : jsval;
  CacheControl : jsval;
  LastModified : jsval
}.

(** The store: [getObject({Bucket, Key})] resolves to an object or rejects
    with an error. *)
Definition client : Type := jsval -> jsval -> object + thrown.
End S3.

(** An event whose [path] is a string, which is what the handlers work
    on. [event.requestContext] is absent, or has the own property [elb] or
    not. The event as it arrives, with any value for [path], is
    [InboundEvent] below. *)
Record Event : Type := {
  path : jsstring;
  requestContext : option bool
}.

(** The fields of the handler instance, which [setup] returns as the
    request. A field that was never assigned is [undefined]. *)
Record Request : Type := {
  bucket : jsval;
  key : jsval;
  originalFile : option (list N);
  ContentType : jsval;
  Expires : jsval;
  LastModified : jsval;
  CacheControl : jsval;
  headers : option (list (jsstring * jsval))
}.

Module Response.
Record t : Type := {
  statusCode : jsval;
  isBase64Encoded : bool;
  headers : gmap jsstring jsval;
  body : jsstring
}.
End Response.

(** ** Effects

    A computation reads and writes the handler instance [this], calls the
    store, and returns or throws. [calls] lists the [getObject] calls made
    so far, the latest first. Logging to the console is left out. *)

Record world : Type := {
  this : Request;
  calls : list (jsval * jsval)
}.

Inductive outcome (A : Type) : Type :=
| Ok (a : A)
| Throw (e : thrown).
Arguments Ok {A} a.
Arguments Throw {A} e.

Definition M (A : Type) : Type := world -> outcome A * world.

#[export] Instance M_ret : MRet M := fun A a w => (Ok a, w).

#[export] Instance M_bind : MBind M := fun A B f m w =>
  match m w with
  | (Ok a, w') => f a w'
  | (Throw e, w') => (Throw e, w')
  end.

Definition throw {A : Type} (e : thrown) : M A := fun w => (Throw e, w).

(** [try { m } catch (err) { h err }] *)
Definition try_catch {A : Type} (m : M A) (h : thrown -> M A) : M A := fun w =>
  match m w with
  | (Ok a, w') => (Ok a, w')
  | (Throw e, w') => h e w'
  end.

Definition get_this : M Request := fun w => (Ok (this w), w).

Definition set_this (f : Request -> Request) : M unit := fun w =>
  (Ok tt, {| this := f (this w); calls := calls w |}).

(** [await s3.getObject({Bucket: b, Key: k}).promise()] *)
Definition getObject (s3 : S3.client) (b k : jsval) : M S3.object := fun w =>
  let w' := {| this := this w; calls := (b, k) :: calls w |} in
  match s3 b k with
  | inl o => (Ok o, w')
  | inr e => (Throw e, w')
  end.

(** ** [FileRequestHandler] *)

(** [new FileRequestHandler(s3, secretsManager)]: no request field is set. *)
Definition new_FileRequestHandler : Request :=
  {| bucket := JUndefined; key := JUndefined; originalFile := None;
     ContentType := JUndefined; Expires := JUndefined;
     LastModified := JUndefined; CacheControl := JUndefined;
     headers := None |}.

Definition set_bucket (v : jsval) (r : Request) : Request :=
  {| bucket := v; key := key r; originalFile := originalFile r;
     ContentType := ContentType r; Expires := Expires r;
     LastModified := LastModified r; CacheControl := CacheControl r;
     headers := headers r |}.

Definition set_key (v : jsval) (r : Request) : Request :=
  {| bucket := bucket r; key := v; originalFile := originalFile r;
     ContentType := ContentType r; Expires := Expires r;
     LastModified := LastModified r; CacheControl := CacheControl r;
     headers := headers r |}.

Definition set_originalFile (v : option (list N)) (r : Request) : Request :=
  {| bucket := bucket r; key := key r; originalFile := v;
     ContentType := ContentType r; Expires := Expires r;
     LastModified := LastModified r; CacheControl := CacheControl r;
     headers := headers r |}.

Definition set_ContentType (v : jsval) (r : Request) : Request :=
  {| bucket := bucket r; key := key r; originalFile := originalFile r;
     ContentType := v; Expires := Expires r;
     LastModified := LastModified r; CacheControl := CacheControl r;
     headers := headers r |}.

Definition set_CacheControl (v : jsval) (r : Request) : Request :=
  {| bucket := bucket r; key := key r; originalFile := originalFile r;
     ContentType := ContentType r; Expires := Expires r;
     LastModified := LastModified r; CacheControl := v;
     headers := headers r |}.

(** [a[0]] on an array of strings *)
Definition index0 (a : list jsstring) : jsval :=
  match a with
  | x :: _ => JStr x
  | [] => JUndefined
  end.

(** [/\s+/g] *)
Definition re_spaces : regex := Plus Space.

(** [/((\bdownload\/\b)|)/g] *)
Definition re_download : regex :=
  Grp (Alt (Grp (Seq WordB (Seq (lit (str "download/")) WordB))) Eps).

(** [/\)/g] *)
Definition re_rparen : regex := Chr (chr ")").

(** [/^\/+/] *)
Definition re_leading_slashes : regex := Seq Bol (Plus (Chr (chr "/"))).

Definition NoSourceBuckets : thrown :=
  Obj (JNum 400) (JStr (str "GetAllowedSourceBuckets::NoSourceBuckets"))
    (JStr (str "The SOURCE_BUCKETS variable could not be read. Please check that it is not empty and contains at least one source bucket, or multiple buckets separated by commas. Spaces can be provided between commas and bucket names, these will be automatically parsed out when decoding.")).

Definition CannotFindFile : thrown :=
  Obj (JNum 404) (JStr (str "FileEdits::CannotFindFile"))
    (JStr (str "The file you specified could not be found. Please check your request syntax as well as the bucket you specified to ensure it exists.")).

Definition InvalidFolderAccess : thrown :=
  Obj (JStr (str "403")) (JStr (str "Invalid folder access"))
    (JStr (str "The path you are trying to access in not allowed")).

Definition TooLargeImageException : thrown :=
  Obj (JStr (str "413")) (JStr (str "TooLargeImageException"))
    (JStr (str "The converted image is too large to return.")).

Definition allowed_folders : list jsstring :=
  [str "csv_images"; str "inventory-csv"; str "processing-csv"; str "sample-csv"].

Definition lambdaPayloadLimit : Z := 6 * 1024 * 1024.

Section FileRequestHandler.
Variable env : Env.
Variable s3 : S3.client.

Definition getAllowedSourceBuckets : M (list jsstring) :=
  match SOURCE_BUCKETS env with
  | None => throw NoSourceBuckets
  | Some sourceBuckets =>
      let formatted := replace_g re_spaces [] sourceBuckets in
      let buckets := split (chr ",") formatted in
      mret buckets
  end.

Definition parseFileBucket (event : Event) : M jsval :=
  sourceBuckets ← getAllowedSourceBuckets;
  mret (index0 sourceBuckets).

(** The path once the three replacements have been applied. *)
Definition s3_file_path (event : Event) : jsstring :=
  replace re_leading_slashes []
    (replace_g re_rparen [] (replace_g re_download [] (path event))).

Definition parseFileKey (event : Event) : M jsstring :=
  try_catch
    (match decodeURIComponent (s3_file_path event) with
     | Some k => mret k
     | None => throw (ErrorInst (str "URI malformed"))
     end)
    (fun e => throw CannotFindFile).

Definition checkAccess (key : jsstring) : M bool :=
  try_catch
    (let folder := index0 (split (chr "/") key) in
     mret (match folder with
           | JStr f => array_includes allowed_folders f
           | _ => false
           end))
    (fun e => throw InvalidFolderAccess).

Definition getOriginalFile (bucket key : jsval) : M (list N) :=
  try_catch
    (originalFile ← getObject s3 bucket key;
     _ ← set_this (set_ContentType (S3.ContentType originalFile));
     _ ← (if truthy (S3.CacheControl originalFile)
          then set_this (set_CacheControl (S3.CacheControl originalFile))
          else set_this (set_CacheControl (JStr (str "max-age=31536000,public"))));
     mret (S3.Body originalFile))
    (fun err =>
       throw (Obj (if bool_decide (JStr (str "NoSuchKey") = code_of err)
                   then JNum 404 else JNum 500)
                  (code_of err)
                  (JStr (to_string (message_of err) ++ str " File Key : "
                         ++ to_string key)))).

Definition setup (event : Event) : M Request :=
  try_catch
    (bucket ← parseFileBucket event;
     _ ← set_this (set_bucket bucket);
     key ← parseFileKey event;
     _ ← set_this (set_key (JStr key));
     allowed ← checkAccess key;
     if (allowed : bool) then
       file ← getOriginalFile bucket (JStr key);
       _ ← set_this (set_originalFile (Some file));
       get_this
     else throw (ErrorInst (str "Invalid operation")))
    (fun err => throw err).

Definition process (request : Request) : M jsstring :=
  match originalFile request with
  | None => throw (ErrorInst (str "The first argument must be of type string or an instance of Buffer, ArrayBuffer, or Array or an Array-like Object. Received undefined"))
  | Some bufferImage =>
      let returnFile := base64 bufferImage in
      if (lambdaPayloadLimit <? Z.of_nat (length returnFile))%Z
      then throw TooLargeImageException
      else mret returnFile
  end.

End FileRequestHandler.

(** ** The dispatcher *)

(** [request.headers] *)
Definition custom_headers (request : Request) : option (list (jsstring * jsval)) :=
  headers request.

(** [/\s/] *)
Definition re_space : regex := Space.

Definition InternalError : list (jsstring * jsval) :=
  [(str "message", JStr (str "Internal error. Please contact the system administrator."));
   (str "code", JStr (str "InternalError"));
   (str "status", JNum 500)].

(** [event.requestContext && event.requestContext.hasOwnProperty('elb')] *)
Definition isAlb_of (event : Event) : jsval :=
  match requestContext event with
  | None => JUndefined
  | Some b => JBool b
  end.

(** [process.env.X && process.env.X.replace(/\s/, '') !== ''] *)
Definition env_nonblank (o : option jsstring) : bool :=
  match o with
  | None => false
  | Some s => truthy (JStr s) && negb (bool_decide (replace re_space [] s = []))
  end.

(** [process.env.DEFAULT_FALLBACK_IMAGE_BUCKET] and
    [process.env.DEFAULT_FALLBACK_IMAGE_KEY] *)
Definition fallback_bucket (env : Env) : jsval :=
  env_val (DEFAULT_FALLBACK_IMAGE_BUCKET env).

Definition fallback_key (env : Env) : jsval :=
  env_val (DEFAULT_FALLBACK_IMAGE_KEY env).

(** The path has the substring [download]. *)
Definition contains_download (event : Event) : Prop :=
  exists pre post, path event = pre ++ str "download" ++ post.

(** The world after one more call to the store. *)
Definition logged (b k : jsval) (w : world) : world :=
  {| this := this w; calls := (b, k) :: calls w |}.

Section Dispatcher.
Variable env : Env.
Variable s3 : S3.client.

(** The image flow is outside this development: [ImageRequest.setup] and
    [ImageHandler.process] are taken as they come. *)
Variable imageRequest_setup : Event -> M Request.
Variable imageHandler_process : Request -> M jsstring.

Definition getResponseHeaders (isErr : bool) (isAlb : jsval) : gmap jsstring jsval :=
  let isAlb := match isAlb with JUndefined => JBool false | v => v end in
  let corsEnabled := bool_decide (env_val (CORS_ENABLED env) = JStr (str "Yes")) in
  let headers : gmap jsstring jsval :=
    <[str "Access-Control-Allow-Headers" := JStr (str "Content-Type, Authorization")]>
      (<[str "Access-Control-Allow-Methods" := JStr (str "GET")]> ∅) in
  let headers :=
    if negb (truthy isAlb)
    then <[str "Access-Control-Allow-Credentials" := JBool true]> headers
    else headers in
  let headers :=
    if corsEnabled
    then <[str "Access-Control-Allow-Origin" := env_val (CORS_ORIGIN env)]> headers
    else headers in
  let headers :=
    if isErr
    then <[str "Content-Type" := JStr (str "application/json")]> headers
    else headers in
  headers.

(** The body of the [try] up to the point where the headers are built. *)
Definition file_flow (event : Event) : M (Request * jsstring) :=
  _ ← set_this (fun _ => new_FileRequestHandler);
  request ← setup env s3 event;
  processedRequest ← process request;
  mret (request, processedRequest).

Definition image_flow (event : Event) : M (Request * jsstring) :=
  request ← imageRequest_setup event;
  processedRequest ← imageHandler_process request;
  mret (request, processedRequest).

(** The flow that the handler runs for [event]. *)
Definition chosen_flow (event : Event) : M (Request * jsstring) :=
  if includes (path event) (str "download")
  then file_flow event else image_flow event.

(** [headers[key] = v] for a key that is computed. On the plain object
    [headers] the name [__proto__] reaches the setter that the object
    inherits: a value that is no object is dropped there, [null] changes
    the prototype, and in neither case does the object get a property of
    that name. (The names of [request.headers], an object, are distinct, so
    the loop assigns to each name once.) *)
Definition set_property (key : jsstring) (v : jsval)
    (headers : gmap jsstring jsval) : gmap jsstring jsval :=
  if bool_decide (key = str "__proto__") then headers
  else <[key := v]> headers.

Definition success_response (isFile : bool) (isAlb : jsval)
    (request : Request) (processedRequest : jsstring) : Response.t :=
  let headers := getResponseHeaders false isAlb in
  let headers := <[str "Content-Type" := ContentType request]> headers in
  let headers := <[str "Expires" := Expires request]> headers in
  let headers :=
    if isFile then <[str "Content-Disposition" := JStr (str "attachment")]> headers
    else headers in
  let headers := <[str "Last-Modified" := LastModified request]> headers in
  let headers := <[str "Cache-Control" := CacheControl request]> headers in
  let headers :=
    match custom_headers request with
    | Some custom =>
        fold_left (fun h kv => set_property (fst kv) (snd kv) h) custom headers
    | None => headers
    end in
  {| Response.statusCode := JNum 200;
     Response.isBase64Encoded := true;
     Response.headers := headers;
     Response.body := processedRequest |}.

(** The test that guards the fallback image. *)
Definition fallback_enabled : bool :=
  bool_decide (env_val (ENABLE_DEFAULT_FALLBACK_IMAGE env) = JStr (str "Yes"))
  && env_nonblank (DEFAULT_FALLBACK_IMAGE_BUCKET env)
  && env_nonblank (DEFAULT_FALLBACK_IMAGE_KEY env).

(** The fallback image: the response that the inner [try] returns, or
    [None] when the guard fails or the fetch throws and the code goes on. *)
Definition fallback_response (err : thrown) (isAlb : jsval) : M (option Response.t) :=
  if fallback_enabled then
    try_catch
      (let bucket := fallback_bucket env in
       let objectKey := fallback_key env in
       defaultFallbackImage ← getObject s3 bucket objectKey;
       let headers := getResponseHeaders false isAlb in
       let headers := <[str "Content-Type" := S3.ContentType defaultFallbackImage]> headers in
       let headers := <[str "Last-Modified" := S3.LastModified defaultFallbackImage]> headers in
       let headers := <[str "Cache-Control" := JStr (str "max-age=31536000,public")]> headers in
       mret (Some {| Response.statusCode :=
                       if truthy (status_of err) then status_of err else JNum 500;
                     Response.isBase64Encoded := true;
                     Response.headers := headers;
                     Response.body := base64 (S3.Body defaultFallbackImage) |}))
      (fun error => mret None)
  else mret None.

Definition error_response (err : thrown) (isAlb : jsval) : Response.t :=
  if truthy (status_of err) then
    {| Response.statusCode := status_of err;
       Response.isBase64Encoded := false;
       Response.headers := getResponseHeaders true isAlb;
       Response.body := JSON_stringify err |}
  else
    {| Response.statusCode := JNum 500;
       Response.isBase64Encoded := false;
       Response.headers := getResponseHeaders true isAlb;
       Response.body := json_object InternalError |}.

(** The [try] and its [catch] around the flow that was chosen. *)
Definition respond (isFile : bool) (isAlb : jsval)
    (flow : M (Request * jsstring)) : M Response.t :=
  try_catch
    (rp ← flow;
     mret (success_response isFile isAlb (fst rp) (snd rp)))
    (fun err =>
       fallback ← fallback_response err isAlb;
       match fallback with
       | Some response => mret response
       | None => mret (error_response err isAlb)
       end).

Definition handler (event : Event) : M Response.t :=
  let fqdn := path event in
  let isFile := includes fqdn (str "download") in
  let isAlb := isAlb_of event in
  respond isFile isAlb (if isFile then file_flow event else image_flow event).

End Dispatcher.

(** The event as the runtime hands it over: [path] is whatever the caller
    sent, a string or not, or nothing at all ([undefined]). *)
Record InboundEvent : Type := {
  event_path : jsval;
  event_requestContext : option bool
}.

(** [exports.handler]. The first two statements, [let fqdn = event.path] and
    [let isFile = fqdn.includes("download")], stand before the [try]: on a
    path that is no string the call throws a [TypeError] there, and nothing
    catches it. On a string the rest is [handler]. *)
Definition exports_handler (env : Env) (s3 : S3.client)
    (imageRequest_setup : Event -> M Request)
    (imageHandler_process : Request -> M jsstring)
    (event : InboundEvent) : M Response.t :=
  match event_path event with
  | JStr fqdn =>
      handler env s3 imageRequest_setup imageHandler_process
        {| path := fqdn; requestContext := event_requestContext event |}
  | JUndefined =>
      throw (ErrorInst (str "Cannot read properties of undefined (reading 'includes')"))
  | JNull =>
      throw (ErrorInst (str "Cannot read properties of null (reading 'includes')"))
  | JBool _ | JNum _ =>
      throw (ErrorInst (str "fqdn.includes is not a function"))
  end.

(** ** The vocabulary of the specification

    The text operations as the specification words them, to be compared
    with the replacements of the source. *)

(** A string with its white space stripped. *)
Definition strip_whitespace (s : jsstring) : jsstring :=
  List.filter (fun c => negb (is_space c)) s.

(** A string without its leading occurrences of [c]. *)
Fixpoint drop_leading (c : jschar) (s : jsstring) : jsstring :=
  match s with
  | [] => []
  | x :: r => if x =? c then drop_leading c r else s
  end.

(** The first entry of a list written with the separator [c]. *)
Fixpoint first_entry (c : jschar) (s : jsstring) : jsstring :=
  match s with
  | [] => []
  | x :: r => if x =? c then [] else x :: first_entry c r
  end.

(** A string without its occurrences of [c]. *)
Definition delete_char (c : jschar) (s : jsstring) : jsstring :=
  List.filter (fun x => negb (x =? c)) s.

Definition token : jsstring := str "download/".

Definition is_word_opt (prev : option jschar) : bool :=
  match prev with
  | Some c => is_word c
  | None => false
  end.

(** The token stands at the head of [s], on a word boundary ([prev], the
    character before it, is no word character) and before a word character. *)
Definition download_token_at (prev : option jschar) (s : jsstring) : bool :=
  negb (is_word_opt prev) && starts_with token s && word_at (skipn 9 s).

(** [strips_download prev s t]: [t] is [s] read from the left with every
    token so placed left out; [prev] is the character before [s]. *)
Inductive strips_download : option jschar -> jsstring -> jsstring -> Prop :=
| sd_end prev :
    strips_download prev [] []
| sd_token prev rest out :
    download_token_at prev (token ++ rest) = true ->
    strips_download (Some (chr "/")) rest out ->
    strips_download prev (token ++ rest) out
| sd_keep prev c rest out :
    download_token_at prev (c :: rest) = false ->
    strips_download (Some c) rest out ->
    strips_download prev (c :: rest) (c :: out).

(** [s] without its first white space character, if there is one. *)
Fixpoint remove_first_space (s : jsstring) : jsstring :=
  match s with
  | [] => []
  | c :: r => if is_space c then r else c :: remove_first_space r
  end.

(** [s] without the first occurrence of [t], if there is one. *)
Fixpoint remove_first (t s : jsstring) : jsstring :=
  if starts_with t s then skipn (length t) s
  else match s with
       | [] => []
       | c :: r => c :: remove_first t r
       end.

(** The key as the specification resolves it: the first [download/] and
    the leading slashes stripped, the rest percent-decoded. *)
Definition specified_parseFileKey (event : Event) : M jsstring :=
  match decodeURIComponent
          (drop_leading (chr "/") (remove_first token (path event))) with
  | Some k => mret k
  | None => throw CannotFindFile
  end.

(** ** Sample configurations *)

(** One source bucket and nothing else configured. *)
Definition env_one_bucket : Env :=
  {| SOURCE_BUCKETS := Some (str "files, spare");
     ENABLE_DEFAULT_FALLBACK_IMAGE := None;
     DEFAULT_FALLBACK_IMAGE_BUCKET := None;
     DEFAULT_FALLBACK_IMAGE_KEY := None;
     CORS_ENABLED := None;
     CORS_ORIGIN := None |}.

(** No variable set. *)
Definition env_unset : Env :=
  {| SOURCE_BUCKETS := None;
     ENABLE_DEFAULT_FALLBACK_IMAGE := None;
     DEFAULT_FALLBACK_IMAGE_BUCKET := None;
     DEFAULT_FALLBACK_IMAGE_KEY := None;
     CORS_ENABLED := None;
     CORS_ORIGIN := None |}.

(** The fallback image switched on, with a bucket name of two blanks. *)
Definition env_blank_fallback_bucket : Env :=
  {| SOURCE_BUCKETS := Some (str "files");
     ENABLE_DEFAULT_FALLBACK_IMAGE := Some (str "Yes");
     DEFAULT_FALLBACK_IMAGE_BUCKET := Some (str "  ");
     DEFAULT_FALLBACK_IMAGE_KEY := Some (str "fallback.png");
     CORS_ENABLED := None;
     CORS_ORIGIN := None |}.

Definition NoSuchKey : thrown :=
  Obj JUndefined (JStr (str "NoSuchKey"))
    (JStr (str "The specified key does not exist.")).

(** A store that holds nothing. *)
Definition store_empty : S3.client := fun _ _ => inr NoSuchKey.

Definition report_csv : S3.object :=
  {| S3.Body := str "a,b";
     S3.ContentType := JStr (str "text/csv");
     S3.CacheControl := JUndefined;
     S3.LastModified := JStr (str "Mon, 02 Nov 2026 10:00:00 GMT") |}.

(** A store that holds one object under every name. *)
Definition store_report : S3.client := fun _ _ => inl report_csv.

Definition world0 : world := {| this := new_FileRequestHandler; calls := [] |}.

Definition event_of (p : jsstring) : Event :=
  {| path := p; requestContext := None |}.

(** An image flow that always fails. *)
Definition image_setup_fails : Event -> M Request :=
  fun _ => throw (ErrorInst (str "image flow")).

Definition image_process_fails : Request -> M jsstring :=
  fun _ => throw (ErrorInst (str "image flow")).

(** [l] doubled [n] times: a long buffer with a short description. *)
Fixpoint doubled (n : nat) (l : list N) : list N :=
  match n with
  | O => l
  | S k => doubled k (l ++ l)
  end.

(** Eight mebibytes of zero bytes. *)
Definition large_file : list N := doubled 23 [0].

(** The headers that a request of the image flow sets itself: a content
    type, and one under the name [__proto__]. *)
Definition sample_custom_headers : list (jsstring * jsval) :=
  [(str "Content-Type", JStr (str "image/webp"));
   (str "__proto__", JStr (str "x"))].

Definition request_with_custom_header : Request :=
  {| bucket := JUndefined; key := JUndefined; originalFile := None;
     ContentType := JStr (str "image/png");
     Expires := JUndefined; LastModified := JUndefined;
     CacheControl := JStr (str "max-age=60");
     headers := Some sample_custom_headers |}.

(** The same request without headers of its own. *)
Definition without_custom_headers (r : Request) : Request :=
  {| bucket := bucket r; key := key r; originalFile := originalFile r;
     ContentType := ContentType r; Expires := Expires r;
     LastModified := LastModified r; CacheControl := CacheControl r;
     headers := None |}.

(** An image flow that returns a fixed request and body. *)
Definition request_png : Request :=
  {| bucket := JStr (str "images"); key := JStr (str "cat.png");
     originalFile := None;
     ContentType := JStr (str "image/png");
     Expires := JUndefined;
     LastModified := JStr (str "Mon, 02 Nov 2026 10:00:00 GMT");
     CacheControl := JStr (str "max-age=60");
     headers := None |}.

Definition image_setup_ok : Event -> M Request := fun _ => mret request_png.

Definition image_process_ok : Request -> M jsstring :=
  fun _ => mret (str "iVBORw0KGgo=").

(** The fallback image switched on and well configured. *)
Definition env_fallback : Env :=
  {| SOURCE_BUCKETS := Some (str "files");
     ENABLE_DEFAULT_FALLBACK_IMAGE := Some (str "Yes");
     DEFAULT_FALLBACK_IMAGE_BUCKET := Some (str "assets");
     DEFAULT_FALLBACK_IMAGE_KEY := Some (str "fallback.png");
     CORS_ENABLED := None;
     CORS_ORIGIN := None |}.

(** * Properties *)

(** Unfolds the plumbing of the effects. *)
Ltac run :=
  unfold try_catch, mbind, M_bind, mret, M_ret, throw, get_this, set_this,
    getObject in *; simpl in *.

(** ** Strings *)

Lemma starts_with_spec (t s : jsstring) :
  starts_with t s = true <-> exists post, s = t ++ post.
Proof.
  revert s. induction t as [|a t IH]; intros s; simpl.
  - split; [intros _; exists s; reflexivity | reflexivity].
  - destruct s as [|b s].
    + split; [discriminate | intros [post H]; discriminate].
    + rewrite andb_true_iff, N.eqb_eq, IH. split.
      * intros [-> [post ->]]. exists post. reflexivity.
      * intros [post H]. injection H as -> ->. split; [reflexivity | eauto].
Qed.

Lemma includes_spec (s t : jsstring) :
  includes s t = true <-> exists pre post, s = pre ++ t ++ post.
Proof.
  induction s as [|c s IH].
  - simpl. rewrite orb_false_r, starts_with_spec. split.
    + intros [post H]. exists [], post. exact H.
    + intros [pre [post H]]. destruct pre as [|x pre]; [|discriminate].
      exists post. exact H.
  - cbn [includes]. rewrite orb_true_iff, starts_with_spec, IH. split.
    + intros [[post H] | [pre [post H]]].
      * exists [], post. exact H.
      * exists (c :: pre), post. simpl. congruence.
    + intros [pre [post H]]. destruct pre as [|x pre].
      * left. exists post. exact H.
      * right. injection H as -> ->. eauto.
Qed.

(** ** The replacements

    Three equations say what one step of a global replacement does: a match
    that consumes [m] is replaced and the scan resumes after it; an empty
    match inserts the replacement and keeps the character; no match keeps
    the character. *)

Section ReplaceSteps.
Variables (r : regex) (repl : jsstring).

Lemma replace_all_skip (m a b : jsstring) :
  replace_all r repl (length m) b (m ++ a) = replace_all r repl O (rev m ++ b) a.
Proof.
  revert b. induction m as [|x m IH]; intros b; [reflexivity|].
  simpl. rewrite IH, <- app_assoc. reflexivity.
Qed.

Lemma replace_all_match (c : jschar) (m a b : jsstring) (q : pos) :
  exec_at r (b, c :: m ++ a) = Some q -> snd q = a ->
  replace_all r repl O b (c :: m ++ a)
  = repl ++ replace_all r repl O (rev (c :: m) ++ b) a.
Proof.
  intros E Hq. cbn [replace_all]. rewrite E, Hq.
  replace (length (c :: m ++ a) - length a)%nat with (S (length m))
    by (simpl; rewrite length_app; lia).
  rewrite replace_all_skip. simpl. rewrite <- app_assoc. reflexivity.
Qed.

Lemma replace_all_empty_match (c : jschar) (a b : jsstring) (q : pos) :
  exec_at r (b, c :: a) = Some q -> snd q = c :: a ->
  replace_all r repl O b (c :: a)
  = repl ++ c :: replace_all r repl O (c :: b) a.
Proof.
  intros E Hq. cbn [replace_all]. rewrite E, Hq, Nat.sub_diag. reflexivity.
Qed.

Lemma replace_all_no_match (c : jschar) (a b : jsstring) :
  exec_at r (b, c :: a) = None ->
  replace_all r repl O b (c :: a) = c :: replace_all r repl O (c :: b) a.
Proof. intros E. cbn [replace_all]. rewrite E. reflexivity. Qed.

End ReplaceSteps.

(** *** [/\)/g]: every occurrence of one character *)

Lemma replace_all_chr (c : jschar) (a b : jsstring) :
  replace_all (Chr c) [] O b a = List.filter (fun x => negb (x =? c)) a.
Proof.
  revert b. induction a as [|x a IH]; intros b; [reflexivity|].
  cbn [List.filter]. destruct (x =? c) eqn:E; cbn [negb].
  - pose proof (replace_all_match (Chr c) [] x [] a b (x :: b, a)) as H.
    cbn [app rev snd] in H. rewrite H.
    + apply IH.
    + unfold exec_at. simpl. rewrite E. reflexivity.
    + reflexivity.
  - rewrite replace_all_no_match.
    + f_equal. apply IH.
    + unfold exec_at. simpl. rewrite E. reflexivity.
Qed.

(** *** [/\s+/g]: every run of white space *)

Lemma star_iter_nonempty (f : pos -> list pos) (fuel : nat) (p : pos) :
  star_iter f fuel p <> [].
Proof. destruct fuel; simpl; [discriminate|]. destruct (flat_map _ _); discriminate. Qed.

Lemma star_space_consumes (fuel : nat) (p q : pos) :
  In q (star_iter (rmatch Space) fuel p) ->
  exists m, snd p = m ++ snd q /\ List.forallb is_space m = true.
Proof.
  revert p. induction fuel as [|k IH]; intros [b a] H; simpl in H.
  - destruct H as [<-|[]]. exists []. split; reflexivity.
  - apply in_app_or in H. destruct H as [H|[<-|[]]];
      [|exists []; split; reflexivity].
    destruct a as [|x a]; [contradiction|].
    destruct (is_space x) eqn:E; [|contradiction].
    simpl in H. rewrite app_nil_r in H.
    destruct (length a <? S (length a))%nat; [|contradiction].
    apply IH in H. destruct H as [m [Hm Hs]]. simpl in Hm.
    exists (x :: m). simpl. rewrite E, Hs, Hm. split; reflexivity.
Qed.

Lemma rmatch_plus (r : regex) (p : pos) :
  rmatch (Plus r) p
  = flat_map (fun q => star_iter (rmatch r) (length (snd q)) q) (rmatch r p).
Proof. reflexivity. Qed.

Lemma rmatch_space (b a : jsstring) (x : jschar) :
  rmatch Space (b, x :: a) = if is_space x then [(x :: b, a)] else [].
Proof. reflexivity. Qed.

Lemma rmatch_chr (c : jschar) (b a : jsstring) (x : jschar) :
  rmatch (Chr c) (b, x :: a) = if x =? c then [(x :: b, a)] else [].
Proof. reflexivity. Qed.

Lemma exec_spaces (b a : jsstring) (x : jschar) :
  if is_space x
  then exists m q, exec_at re_spaces (b, x :: a) = Some q /\
                   a = m ++ snd q /\ List.forallb is_space m = true
  else exec_at re_spaces (b, x :: a) = None.
Proof.
  unfold exec_at, re_spaces. rewrite rmatch_plus, rmatch_space.
  destruct (is_space x) eqn:E; [|reflexivity].
  cbn [flat_map snd]. rewrite app_nil_r.
  destruct (star_iter (rmatch Space) (length a) (x :: b, a)) as [|q l] eqn:S.
  - exfalso. exact (star_iter_nonempty _ _ _ S).
  - assert (In q (star_iter (rmatch Space) (length a) (x :: b, a)))
      as H by (rewrite S; left; reflexivity).
    apply star_space_consumes in H. destruct H as [m [Hm Hs]].
    exists m, q. simpl in Hm. repeat split; assumption.
Qed.

Lemma filter_spaces (m a : jsstring) :
  List.forallb is_space m = true ->
  strip_whitespace (m ++ a) = strip_whitespace a.
Proof.
  unfold strip_whitespace. induction m as [|x m IH]; [reflexivity|]. simpl.
  intros H. apply andb_true_iff in H. destruct H as [-> H]. simpl. auto.
Qed.

Lemma replace_all_spaces (n : nat) :
  forall a b : jsstring, (length a <= n)%nat ->
    replace_all re_spaces [] O b a = strip_whitespace a.
Proof.
  induction n as [|n IH]; intros a b Hn.
  - destruct a; [reflexivity | simpl in Hn; lia].
  - destruct a as [|x a]; [reflexivity|].
    pose proof (exec_spaces b a x) as E.
    unfold strip_whitespace. cbn [List.filter].
    destruct (is_space x) eqn:Ex; cbn [negb].
    + destruct E as [m [q [E [Hm Hs]]]]. subst a.
      rewrite (replace_all_match re_spaces [] x m (snd q) b q E eq_refl).
      simpl app at 1. rewrite IH.
      * symmetry. apply filter_spaces. exact Hs.
      * simpl in Hn. rewrite length_app in Hn. lia.
    + rewrite (replace_all_no_match _ _ _ _ _ E). f_equal. apply IH.
      simpl in Hn. lia.
Qed.

Lemma replace_g_spaces (s : jsstring) :
  replace_g re_spaces [] s = strip_whitespace s.
Proof. apply (replace_all_spaces (length s)). reflexivity. Qed.

(** *** [/^\/+/]: the leading run of one character *)

Lemma head_app_nonempty {A : Type} (l l' : list A) :
  l <> [] -> head (l ++ l') = head l.
Proof. destruct l; [congruence | reflexivity]. Qed.

Lemma star_chr_head (c : jschar) (fuel : nat) :
  forall a b : jsstring, (length a <= fuel)%nat ->
    snd <$> head (star_iter (rmatch (Chr c)) fuel (b, a))
    = Some (drop_leading c a).
Proof.
  induction fuel as [|k IH]; intros a b Hk.
  - destruct a; [reflexivity | simpl in Hk; lia].
  - destruct a as [|x a]; [reflexivity|].
    cbn [star_iter drop_leading]. rewrite rmatch_chr.
    destruct (x =? c); [|reflexivity].
    cbn [flat_map snd]. rewrite app_nil_r.
    replace (length a <? length (x :: a))%nat with true
      by (symmetry; apply Nat.ltb_lt; simpl; lia).
    rewrite head_app_nonempty by apply star_iter_nonempty.
    apply IH. simpl in Hk. lia.
Qed.

Lemma replace_first_not_at_start (r : regex) (repl a b : jsstring) :
  b <> [] -> replace_first (Seq Bol r) repl b a = a.
Proof.
  revert b. induction a as [|x a IH]; intros b Hb.
  - destruct b; [congruence | reflexivity].
  - destruct b as [|y b]; [congruence|].
    cbn [replace_first]. unfold exec_at. cbn [rmatch fst flat_map head].
    f_equal. apply IH. discriminate.
Qed.

Lemma replace_leading_slashes (s : jsstring) :
  replace re_leading_slashes [] s = drop_leading (chr "/") s.
Proof.
  unfold replace, re_leading_slashes. destruct s as [|x a]; [reflexivity|].
  cbn [replace_first drop_leading]. unfold exec_at.
  change (rmatch (Seq Bol (Plus (Chr (chr "/")))) ([], x :: a))
    with (rmatch (Plus (Chr (chr "/"))) ([], x :: a) ++ []).
  rewrite app_nil_r, rmatch_plus, rmatch_chr.
  destruct (x =? chr "/").
  - cbn [flat_map snd]. rewrite app_nil_r.
    pose proof (star_chr_head (chr "/") (length a) a [x] (le_n _)) as H.
    destruct (head _) as [q|]; [|discriminate].
    injection H as ->. reflexivity.
  - cbn [flat_map head]. f_equal.
    apply replace_first_not_at_start. discriminate.
Qed.

(** *** [/((\bdownload\/\b)|)/g]: the token between word boundaries *)

Lemma rmatch_lit (l : jsstring) :
  forall b a : jsstring,
    rmatch (lit l) (b, a)
    = if starts_with l a then [(rev l ++ b, skipn (length l) a)] else [].
Proof.
  induction l as [|c l IH]; intros b a; [reflexivity|].
  cbn [lit starts_with]. destruct a as [|x a]; [reflexivity|].
  change (rmatch (Seq (Chr c) (lit l)) (b, x :: a))
    with (flat_map (rmatch (lit l)) (rmatch (Chr c) (b, x :: a))).
  rewrite rmatch_chr, (N.eqb_sym c x). destruct (x =? c) eqn:E; [|reflexivity].
  apply N.eqb_eq in E. subst x.
  cbn [flat_map andb]. rewrite app_nil_r, IH.
  destruct (starts_with l a); [|reflexivity].
  simpl. rewrite <- app_assoc. reflexivity.
Qed.

Lemma word_at_head (b : jsstring) : word_at b = is_word_opt (head b).
Proof. destruct b; reflexivity. Qed.

Lemma starts_with_token (a : jsstring) :
  starts_with token a = true -> a = token ++ skipn 9 a.
Proof.
  intros H. apply starts_with_spec in H. destruct H as [post ->]. reflexivity.
Qed.

Lemma exec_download (b a : jsstring) :
  exec_at re_download (b, a)
  = Some (if download_token_at (head b) a
          then (rev token ++ b, skipn 9 a) else (b, a)).
Proof.
  unfold exec_at, re_download, download_token_at.
  change (rmatch (Grp (Alt (Grp (Seq WordB (Seq (lit token) WordB))) Eps)) (b, a))
    with (flat_map (fun q => flat_map (rmatch WordB) (rmatch (lit token) q))
            (rmatch WordB (b, a)) ++ [(b, a)]).
  rewrite <- word_at_head.
  destruct (starts_with token a) eqn:St.
  - pose proof (starts_with_token a St) as Ha.
    assert (word_at a = true) as Wa by (rewrite Ha; reflexivity).
    cbn [rmatch fst snd]. rewrite Wa, xorb_true_r.
    destruct (word_at b); [reflexivity|].
    cbn [negb flat_map andb]. rewrite rmatch_lit.
    change (str "download/") with token. rewrite St.
    cbn [flat_map rmatch fst snd].
    change (word_at (rev token ++ b)) with false. rewrite xorb_false_l.
    change (length token) with 9%nat.
    destruct (word_at (skipn 9 a)); reflexivity.
  - rewrite andb_false_r. cbn [andb rmatch fst snd].
    destruct (xorb (word_at b) (word_at a)); [|reflexivity].
    cbn [flat_map]. rewrite rmatch_lit.
    change (str "download/") with token. rewrite St. reflexivity.
Qed.

Lemma replace_all_download (n : nat) :
  forall a b : jsstring, (length a <= n)%nat ->
    strips_download (head b) a (replace_all re_download [] O b a).
Proof.
  induction n as [|n IH]; intros a b Hn.
  - destruct a; [|simpl in Hn; lia]. cbn [replace_all].
    destruct (exec_at _ _); constructor.
  - destruct a as [|x a].
    { cbn [replace_all]. destruct (exec_at _ _); constructor. }
    pose proof (exec_download b (x :: a)) as E.
    destruct (download_token_at (head b) (x :: a)) eqn:T.
    + assert (starts_with token (x :: a) = true) as St.
      { unfold download_token_at in T.
        apply andb_true_iff in T. destruct T as [T _].
        apply andb_true_iff in T. apply T. }
      pose proof (starts_with_token _ St) as Ha.
      set (rest := skipn 9 (x :: a)) in *.
      rewrite Ha in T |- *. rewrite Ha in E at 1.
      change (token ++ rest) with (chr "d" :: str "ownload/" ++ rest) in E |- * at 2.
      rewrite (replace_all_match _ _ _ _ _ _ _ E eq_refl).
      apply sd_token; [exact T|].
      apply (IH rest (rev token ++ b)).
      assert (length (x :: a) = length (token ++ rest)) as L by (rewrite <- Ha; reflexivity).
      rewrite length_app in L. simpl in L, Hn. lia.
    + rewrite (replace_all_empty_match _ _ _ _ _ _ E eq_refl).
      apply sd_keep; [exact T|].
      apply (IH a (x :: b)). simpl in Hn. lia.
Qed.

Lemma replace_g_download (s : jsstring) :
  strips_download None s (replace_g re_download [] s).
Proof. apply (replace_all_download (length s) s []). reflexivity. Qed.

Lemma strips_download_fun (prev : option jschar) (s t1 t2 : jsstring) :
  strips_download prev s t1 -> strips_download prev s t2 -> t1 = t2.
Proof.
  intros H1. revert t2.
  induction H1 as [prev|prev rest out T1 _ IH|prev c rest out T1 _ IH];
    intros t2 H2.
  - inversion H2; subst; try reflexivity; discriminate.
  - inversion H2; subst.
    + auto.
    + assert (download_token_at prev (token ++ rest) = false) by assumption.
      congruence.
  - inversion H2; subst.
    + match goal with
      | T : download_token_at ?p (token ++ ?r) = true |- _ =>
          assert (download_token_at p (token ++ r) = false) by assumption
      end.
      congruence.
    + f_equal. auto.
Qed.

(** ** Running [setup] *)

Lemma index0_split (c : jschar) (s : jsstring) :
  index0 (split c s) = JStr (first_entry c s).
Proof.
  induction s as [|x r IH]; [reflexivity|]. simpl.
  destruct (x =? c); [reflexivity|].
  destruct (split c r); simpl in *; congruence.
Qed.

Lemma parseFileBucket_run (env : Env) (event : Event) (w : world) :
  parseFileBucket env event w
  = match SOURCE_BUCKETS env with
    | None => (Throw NoSourceBuckets, w)
    | Some s => (Ok (JStr (first_entry (chr ",") (strip_whitespace s))), w)
    end.
Proof.
  unfold parseFileBucket, getAllowedSourceBuckets. run.
  destruct (SOURCE_BUCKETS env) as [s|]; [|reflexivity].
  rewrite index0_split, replace_g_spaces. reflexivity.
Qed.

Lemma parseFileKey_run (event : Event) (w : world) :
  parseFileKey event w
  = match decodeURIComponent (s3_file_path event) with
    | Some k => (Ok k, w)
    | None => (Throw CannotFindFile, w)
    end.
Proof.
  unfold parseFileKey. run.
  destruct (decodeURIComponent (s3_file_path event)); reflexivity.
Qed.

Lemma checkAccess_run (key : jsstring) (w : world) :
  checkAccess key w
  = (Ok (array_includes allowed_folders (first_entry (chr "/") key)), w).
Proof. unfold checkAccess. run. rewrite index0_split. reflexivity. Qed.

Lemma getOriginalFile_run (s3 : S3.client) (b k : jsval) (w : world) :
  getOriginalFile s3 b k w
  = match s3 b k with
    | inl obj =>
        (Ok (S3.Body obj),
         {| this :=
              set_CacheControl
                (if truthy (S3.CacheControl obj) then S3.CacheControl obj
                 else JStr (str "max-age=31536000,public"))
                (set_ContentType (S3.ContentType obj) (this w));
            calls := (b, k) :: calls w |})
    | inr err =>
        (Throw (Obj (if bool_decide (JStr (str "NoSuchKey") = code_of err)
                     then JNum 404 else JNum 500)
                    (code_of err)
                    (JStr (to_string (message_of err) ++ str " File Key : "
                           ++ to_string k))),
         logged b k w)
    end.
Proof.
  unfold getOriginalFile. run. destruct (s3 b k) as [obj|err]; [|reflexivity].
  destruct (truthy (S3.CacheControl obj)); reflexivity.
Qed.

(** [setup], step by step: the bucket, the key, the folder, the fetch. *)
Lemma setup_run (env : Env) (s3 : S3.client) (event : Event) (w : world) :
  setup env s3 event w
  = match SOURCE_BUCKETS env with
    | None => (Throw NoSourceBuckets, w)
    | Some sb =>
        let b := JStr (first_entry (chr ",") (strip_whitespace sb)) in
        let w1 := {| this := set_bucket b (this w); calls := calls w |} in
        match decodeURIComponent (s3_file_path event) with
        | None => (Throw CannotFindFile, w1)
        | Some k =>
            let w2 := {| this := set_key (JStr k) (this w1); calls := calls w |} in
            if array_includes allowed_folders (first_entry (chr "/") k)
            then
              match getOriginalFile s3 b (JStr k) w2 with
              | (Ok file, w3) =>
                  (Ok (set_originalFile (Some file) (this w3)),
                   {| this := set_originalFile (Some file) (this w3);
                      calls := calls w3 |})
              | (Throw err, w3) => (Throw err, w3)
              end
            else (Throw (ErrorInst (str "Invalid operation")), w2)
        end
    end.
Proof.
  unfold setup, try_catch at 1, mbind at 1, M_bind at 1.
  rewrite parseFileBucket_run.
  destruct (SOURCE_BUCKETS env) as [sb|]; [|reflexivity].
  cbv zeta. unfold mbind at 1, M_bind at 1, set_this at 1.
  unfold mbind at 1, M_bind at 1. rewrite parseFileKey_run.
  destruct (decodeURIComponent (s3_file_path event)) as [k|]; [|reflexivity].
  unfold mbind at 1, M_bind at 1, set_this at 1.
  unfold mbind at 1, M_bind at 1. rewrite checkAccess_run.
  destruct (array_includes allowed_folders (first_entry (chr "/") k));
    [|reflexivity].
  unfold mbind at 1, M_bind at 1.
  destruct (getOriginalFile s3 _ _ _) as [[file|err] w3]; reflexivity.
Qed.

(** ** Routing *)

(** C9. An event goes to the file flow when its path contains the substring
    [download], and to the image flow when it does not. *)
Theorem handler_routes_on_download (env : Env) (s3 : S3.client)
    (imageRequest_setup : Event -> M Request)
    (imageHandler_process : Request -> M jsstring) (event : Event) :
  (contains_download event ->
     handler env s3 imageRequest_setup imageHandler_process event
     = respond env s3 true (isAlb_of event) (file_flow env s3 event)) /\
  (~ contains_download event ->
     handler env s3 imageRequest_setup imageHandler_process event
     = respond env s3 false (isAlb_of event)
         (image_flow imageRequest_setup imageHandler_process event)).
Proof.
  unfold handler, contains_download. rewrite <- includes_spec.
  destruct (includes (path event) (str "download")); split; intros H;
    try reflexivity; try discriminate; exfalso; apply H; reflexivity.
Qed.

(** ** The fallback image *)

Section Fallback.
Variable env : Env.
Variable s3 : S3.client.
Variables (err : thrown) (isAlb : jsval) (w : world).

Lemma fallback_disabled :
  fallback_enabled env = false ->
  fallback_response env s3 err isAlb w = (Ok None, w).
Proof. unfold fallback_response. intros ->. reflexivity. Qed.

Lemma fallback_fetch_fails (e : thrown) :
  fallback_enabled env = true ->
  s3 (fallback_bucket env) (fallback_key env) = inr e ->
  fallback_response env s3 err isAlb w
  = (Ok None, logged (fallback_bucket env) (fallback_key env) w).
Proof.
  unfold fallback_response. intros -> H. run.
  rewrite H. reflexivity.
Qed.

Lemma fallback_fetch_succeeds (img : S3.object) :
  fallback_enabled env = true ->
  s3 (fallback_bucket env) (fallback_key env) = inl img ->
  exists response,
    fallback_response env s3 err isAlb w
    = (Ok (Some response),
       logged (fallback_bucket env) (fallback_key env) w) /\
    Response.statusCode response
    = (if truthy (status_of err) then status_of err else JNum 500) /\
    Response.isBase64Encoded response = true /\
    Response.body response = base64 (S3.Body img) /\
    Response.headers response !! str "Cache-Control"
    = Some (JStr (str "max-age=31536000,public")).
Proof.
  unfold fallback_response. intros -> H. run.
  rewrite H. eexists. split; [reflexivity|]. simpl.
  repeat split. apply lookup_insert_eq.
Qed.

Lemma fallback_calls :
  calls (snd (fallback_response env s3 err isAlb w))
  = if fallback_enabled env
    then (fallback_bucket env, fallback_key env) :: calls w
    else calls w.
Proof.
  unfold fallback_response.
  destruct (fallback_enabled env); [|reflexivity]. run.
  destruct (s3 _ _); reflexivity.
Qed.

End Fallback.

(** ** Responses *)

Lemma error_response_status (env : Env) (err : thrown) (isAlb : jsval) :
  truthy (Response.statusCode (error_response env err isAlb)) = true.
Proof.
  unfold error_response. destruct (truthy (status_of err)) eqn:E; simpl; auto.
Qed.

(** On an event whose path is a string, whatever the store and the image
    flow do, the handler returns one response, whose status code is set. *)
Lemma handler_always_responds (env : Env) (s3 : S3.client)
    (imageRequest_setup : Event -> M Request)
    (imageHandler_process : Request -> M jsstring)
    (event : Event) (w : world) :
  exists (response : Response.t) (w' : world),
    handler env s3 imageRequest_setup imageHandler_process event w
    = (Ok response, w') /\
    truthy (Response.statusCode response) = true.
Proof.
  unfold handler, respond.
  set (flow := if includes _ _ then _ else _). clearbody flow.
  set (a := isAlb_of event). clearbody a.
  unfold try_catch at 1, mbind at 1, M_bind at 1.
  destruct (flow w) as [[rp|err] w1].
  - eexists _, _. split; [reflexivity|reflexivity].
  - unfold mbind, M_bind.
    destruct (fallback_enabled env) eqn:En.
    + destruct (s3 (fallback_bucket env) (fallback_key env)) as [img|e] eqn:Es.
      * destruct (fallback_fetch_succeeds env s3 err a w1 img En Es)
          as [r [-> [Hs _]]].
        eexists _, _. split; [reflexivity|]. rewrite Hs.
        destruct (truthy (status_of err)) eqn:T; auto.
      * rewrite (fallback_fetch_fails env s3 err a w1 e En Es).
        eexists _, _. split; [reflexivity|]. apply error_response_status.
    + rewrite (fallback_disabled env s3 err a w1 En).
      eexists _, _. split; [reflexivity|]. apply error_response_status.
Qed.

Lemma exports_handler_non_string (env : Env) (s3 : S3.client)
    (imageRequest_setup : Event -> M Request)
    (imageHandler_process : Request -> M jsstring)
    (event : InboundEvent) (w : world) :
  (forall fqdn : jsstring, event_path event <> JStr fqdn) ->
  exists msg : jsstring,
    exports_handler env s3 imageRequest_setup imageHandler_process event w
    = (Throw (ErrorInst msg), w).
Proof.
  intros H. unfold exports_handler.
  destruct (event_path event) as [| |b|n|fqdn];
    try (eexists; reflexivity).
  exfalso. exact (H fqdn eq_refl).
Qed.

(** C4. An event without a path: [fqdn.includes] throws before the [try]
    is entered, so the handler rejects with that [TypeError] and gives no
    response, whatever the environment, the store and the image flow. *)
Theorem handler_rejects_without_path (env : Env) (s3 : S3.client)
    (imageRequest_setup : Event -> M Request)
    (imageHandler_process : Request -> M jsstring)
    (rc : option bool) (w : world) :
  exports_handler env s3 imageRequest_setup imageHandler_process
    {| event_path := JUndefined; event_requestContext := rc |} w
  = (Throw (ErrorInst
              (str "Cannot read properties of undefined (reading 'includes')")),
     w) /\
  ~ (exists (response : Response.t) (w' : world),
       exports_handler env s3 imageRequest_setup imageHandler_process
         {| event_path := JUndefined; event_requestContext := rc |} w
       = (Ok response, w')).
Proof.
  split; [reflexivity|]. intros [response [w' H]]. discriminate H.
Qed.

(** When the flow fails and the fallback image is fetched, the response
    carries it, with the status of the error or 500. *)
Lemma handler_fallback_response (env : Env) (s3 : S3.client)
    (imageRequest_setup : Event -> M Request)
    (imageHandler_process : Request -> M jsstring)
    (event : Event) (w w1 : world) (err : thrown) (img : S3.object) :
  chosen_flow env s3 imageRequest_setup imageHandler_process event w
  = (Throw err, w1) ->
  fallback_enabled env = true ->
  s3 (fallback_bucket env) (fallback_key env) = inl img ->
  exists response : Response.t,
    handler env s3 imageRequest_setup imageHandler_process event w
    = (Ok response, logged (fallback_bucket env) (fallback_key env) w1) /\
    Response.statusCode response
    = (if truthy (status_of err) then status_of err else JNum 500) /\
    Response.isBase64Encoded response = true /\
    Response.body response = base64 (S3.Body img) /\
    Response.headers response !! str "Cache-Control"
    = Some (JStr (str "max-age=31536000,public")).
Proof.
  intros Hflow En Es.
  destruct (fallback_fetch_succeeds env s3 err (isAlb_of event) w1 img En Es)
    as [response [Hr Hfields]].
  exists response. split; [|exact Hfields].
  unfold handler, respond, try_catch, mbind, M_bind.
  unfold chosen_flow in Hflow. rewrite Hflow, Hr. reflexivity.
Qed.

(** When the fetch of the fallback image fails, the error response is
    given as if there were no fallback. *)
Lemma handler_fallback_falls_through (env : Env) (s3 : S3.client)
    (imageRequest_setup : Event -> M Request)
    (imageHandler_process : Request -> M jsstring)
    (event : Event) (w w1 : world) (err e : thrown) :
  chosen_flow env s3 imageRequest_setup imageHandler_process event w
  = (Throw err, w1) ->
  fallback_enabled env = true ->
  s3 (fallback_bucket env) (fallback_key env) = inr e ->
  handler env s3 imageRequest_setup imageHandler_process event w
  = (Ok (error_response env err (isAlb_of event)),
     logged (fallback_bucket env) (fallback_key env) w1).
Proof.
  intros Hflow En Es.
  unfold handler, respond, try_catch, mbind, M_bind.
  unfold chosen_flow in Hflow.
  rewrite Hflow, (fallback_fetch_fails env s3 err _ w1 e En Es). reflexivity.
Qed.

(** ** The source bucket *)

(** C6. Without [SOURCE_BUCKETS], [setup] fails with status 400 and code
    [GetAllowedSourceBuckets::NoSourceBuckets] and the store has not been
    called; with it, the bucket is the first entry of the comma-separated
    list once its white space is stripped, whatever the event. *)
Theorem source_bucket_resolution (env : Env) (s3 : S3.client)
    (event : Event) (w : world) :
  (SOURCE_BUCKETS env = None ->
     setup env s3 event w
     = (Throw (Obj (JNum 400)
                   (JStr (str "GetAllowedSourceBuckets::NoSourceBuckets"))
                   (message_of NoSourceBuckets)), w)) /\
  (forall sb : jsstring, SOURCE_BUCKETS env = Some sb ->
     parseFileBucket env event w
     = (Ok (JStr (first_entry (chr ",") (strip_whitespace sb))), w)).
Proof.
  split.
  - intros H. rewrite setup_run, H. reflexivity.
  - intros sb H. rewrite parseFileBucket_run, H. reflexivity.
Qed.

Lemma source_bucket_resolution_witness :
  (SOURCE_BUCKETS env_unset = None /\
   setup env_unset store_report (event_of (str "/download/csv_images/a.csv")) world0
   = (Throw NoSourceBuckets, world0)) /\
  (SOURCE_BUCKETS env_one_bucket = Some (str "files, spare") /\
   parseFileBucket env_one_bucket (event_of (str "/download/csv_images/a.csv")) world0
   = (Ok (JStr (str "files")), world0)).
Proof.
  split; (split; [reflexivity|]).
  - apply (proj1 (source_bucket_resolution env_unset store_report
                    (event_of (str "/download/csv_images/a.csv")) world0)).
    reflexivity.
  - apply (proj2 (source_bucket_resolution env_one_bucket store_report
                    (event_of (str "/download/csv_images/a.csv")) world0)
             (str "files, spare")).
    reflexivity.
Defined.

(** ** The fetch *)

(** C7. Once the bucket and the key are resolved and the folder is allowed,
    [setup] fetches (bucket, key). An error of the store with code
    [NoSuchKey] gives status 404, any other gives 500; both carry the code
    of the store and a message that ends with the key. An object gives the
    request its content type, and its cache control when that is set,
    [max-age=31536000,public] otherwise. *)
Theorem fetch_outcome (env : Env) (s3 : S3.client) (event : Event)
    (w : world) (sb k : jsstring) :
  SOURCE_BUCKETS env = Some sb ->
  decodeURIComponent (s3_file_path event) = Some k ->
  array_includes allowed_folders (first_entry (chr "/") k) = true ->
  match s3 (JStr (first_entry (chr ",") (strip_whitespace sb))) (JStr k) with
  | inr err =>
      exists w',
        setup env s3 event w
        = (Throw (Obj (if bool_decide (code_of err = JStr (str "NoSuchKey"))
                       then JNum 404 else JNum 500)
                      (code_of err)
                      (JStr (to_string (message_of err)
                             ++ str " File Key : " ++ k))), w')
  | inl obj =>
      exists request w',
        setup env s3 event w = (Ok request, w') /\
        originalFile request = Some (S3.Body obj) /\
        ContentType request = S3.ContentType obj /\
        CacheControl request
        = (if truthy (S3.CacheControl obj) then S3.CacheControl obj
           else JStr (str "max-age=31536000,public"))
  end.
Proof.
  intros Hb Hk Ha. rewrite setup_run, Hb. cbv zeta. rewrite Hk, Ha.
  rewrite getOriginalFile_run.
  destruct (s3 _ _) as [obj|err].
  - eexists _, _. split; [reflexivity|]. repeat split.
  - eexists. do 3 f_equal.
    destruct (code_of err) as [| |?|?|c]; try reflexivity.
    repeat case_bool_decide; congruence.
Qed.

Lemma fetch_outcome_witness :
  let event := event_of (str "/download/csv_images/a.csv") in
  (SOURCE_BUCKETS env_one_bucket = Some (str "files, spare") /\
   decodeURIComponent (s3_file_path event) = Some (str "csv_images/a.csv") /\
   array_includes allowed_folders (first_entry (chr "/") (str "csv_images/a.csv"))
   = true) /\
  (exists w',
     setup env_one_bucket store_empty event world0
     = (Throw (Obj (JNum 404) (JStr (str "NoSuchKey"))
                   (JStr (str "The specified key does not exist. File Key : csv_images/a.csv"))),
        w')) /\
  (exists request w',
     setup env_one_bucket store_report event world0 = (Ok request, w') /\
     originalFile request = Some (str "a,b") /\
     ContentType request = JStr (str "text/csv") /\
     CacheControl request = JStr (str "max-age=31536000,public")).
Proof.
  cbv zeta. split; [repeat split|]. split.
  - exact (fetch_outcome env_one_bucket store_empty
             (event_of (str "/download/csv_images/a.csv")) world0
             (str "files, spare") (str "csv_images/a.csv")
             eq_refl eq_refl eq_refl).
  - exact (fetch_outcome env_one_bucket store_report
             (event_of (str "/download/csv_images/a.csv")) world0
             (str "files, spare") (str "csv_images/a.csv")
             eq_refl eq_refl eq_refl).
Defined.

(** ** The folder check *)

Lemma setup_denied (env : Env) (s3 : S3.client) (event : Event)
    (w : world) (sb k : jsstring) :
  SOURCE_BUCKETS env = Some sb ->
  decodeURIComponent (s3_file_path event) = Some k ->
  array_includes allowed_folders (first_entry (chr "/") k) = false ->
  exists w',
    setup env s3 event w = (Throw (ErrorInst (str "Invalid operation")), w') /\
    calls w' = calls w.
Proof.
  intros Hb Hk Ha. rewrite setup_run, Hb. cbv zeta. rewrite Hk, Ha.
  eexists. split; reflexivity.
Qed.

Example csv_images_allowed :
  checkAccess (str "csv_images/foo.csv") world0 = (Ok true, world0).
Proof. reflexivity. Qed.

Example secret_not_allowed :
  checkAccess (str "secret/foo.csv") world0 = (Ok false, world0).
Proof. reflexivity. Qed.

(** C1. A key in a folder that is not allowed: [setup] throws the error
    [Invalid operation], which has no status and no code, and the store is
    not called; the handler answers 500. The error with status ['403'] and
    code [Invalid folder access] is not the one thrown. *)
Theorem denied_folder_error (s3 : S3.client)
    (imageRequest_setup : Event -> M Request)
    (imageHandler_process : Request -> M jsstring) (w : world) :
  let event := event_of (str "/download/secret/foo.csv") in
  parseFileKey event w = (Ok (str "secret/foo.csv"), w) /\
  array_includes allowed_folders (str "secret") = false /\
  (exists w',
     setup env_one_bucket s3 event w
     = (Throw (ErrorInst (str "Invalid operation")), w') /\
     calls w' = calls w) /\
  status_of (ErrorInst (str "Invalid operation")) = JUndefined /\
  code_of (ErrorInst (str "Invalid operation")) = JUndefined /\
  (exists response w',
     handler env_one_bucket s3 imageRequest_setup imageHandler_process event w
     = (Ok response, w') /\
     Response.statusCode response = JNum 500).
Proof.
  cbv zeta. split; [|split; [|split; [|split; [|split]]]].
  - rewrite parseFileKey_run. reflexivity.
  - reflexivity.
  - apply (setup_denied _ _ _ _ (str "files, spare") (str "secret/foo.csv"));
      reflexivity.
  - reflexivity.
  - reflexivity.
  - eexists _, _. split; reflexivity.
Qed.

(** ** The key *)

Lemma s3_file_path_spec (event : Event) :
  exists t : jsstring,
    strips_download None (path event) t /\
    s3_file_path event = drop_leading (chr "/") (delete_char (chr ")") t).
Proof.
  exists (replace_g re_download [] (path event)). split.
  - apply replace_g_download.
  - unfold s3_file_path, re_rparen, replace_g.
    rewrite replace_leading_slashes, replace_all_chr. reflexivity.
Qed.

(** C5, as amended. The key is the path with every [download/] that lies
    between word boundaries left out, then every [)] deleted, then the
    leading slashes stripped, and the rest percent-decoded; when the decoding
    throws, the error has status 404 and code [FileEdits::CannotFindFile]. *)
Theorem parseFileKey_resolves (event : Event) (w : world) :
  exists t : jsstring,
    strips_download None (path event) t /\
    parseFileKey event w
    = match decodeURIComponent
              (drop_leading (chr "/") (delete_char (chr ")") t)) with
      | Some k => (Ok k, w)
      | None =>
          (Throw (Obj (JNum 404) (JStr (str "FileEdits::CannotFindFile"))
                      (message_of CannotFindFile)), w)
      end.
Proof.
  destruct (s3_file_path_spec event) as [t [Ht E]].
  exists t. split; [exact Ht|].
  rewrite parseFileKey_run, E. reflexivity.
Qed.

(** C5, as stated, fails: a second [download/] is stripped as well. *)
Lemma parseFileKey_strips_every_token :
  let event := event_of (str "/download/csv_images/download/a.csv") in
  parseFileKey event world0 = (Ok (str "csv_images/a.csv"), world0) /\
  specified_parseFileKey event world0
  = (Ok (str "csv_images/download/a.csv"), world0) /\
  parseFileKey event world0 <> specified_parseFileKey event world0.
Proof.
  cbv zeta. split; [|split].
  - vm_compute. reflexivity.
  - vm_compute. reflexivity.
  - vm_compute. discriminate.
Qed.




(** Without a percent sign there is nothing to decode. *)
Lemma decode_without_percent (s : jsstring) :
  ~ In percent s -> decodeURIComponent s = Some s.
Proof.
  unfold decodeURIComponent. induction s as [|c r IH]; intros H; [reflexivity|].
  simpl. destruct (c =? percent) eqn:E.
  - exfalso. apply H. left. apply N.eqb_eq in E. auto.
  - assert (~ In percent r) as Hr by (intros Hin; apply H; right; exact Hin).
    specialize (IH Hr). destruct (unescape r) as [ts|]; [|discriminate].
    simpl in *. rewrite IH. reflexivity.
Qed.




(** ** The payload limit *)

Lemma base64_length_le (n : nat) :
  forall l : list N, (length l <= n)%nat ->
    Z.of_nat (length (base64 l)) = (4 * ((Z.of_nat (length l) + 2) / 3))%Z.
Proof.
  induction n as [|n IH]; intros l Hn.
  - destruct l; [reflexivity | simpl in Hn; lia].
  - destruct l as [|a [|b [|c r]]]; try reflexivity.
    cbn [base64 length]. rewrite !Nat2Z.inj_succ, IH by (simpl in Hn; lia).
    replace (Z.succ (Z.succ (Z.succ (Z.of_nat (length r)))) + 2)%Z
      with (Z.of_nat (length r) + 2 + 1 * 3)%Z by lia.
    rewrite Z.div_add by lia. lia.
Qed.

Lemma base64_length (l : list N) :
  Z.of_nat (length (base64 l)) = (4 * ((Z.of_nat (length l) + 2) / 3))%Z.
Proof. apply (base64_length_le (length l)). reflexivity. Qed.

Lemma doubled_length (n : nat) :
  forall l : list N,
    Z.of_nat (length (doubled n l)) = (2 ^ Z.of_nat n * Z.of_nat (length l))%Z.
Proof.
  induction n as [|n IH]; intros l.
  - simpl doubled. rewrite Z.pow_0_r. lia.
  - cbn [doubled]. rewrite IH, length_app, Nat2Z.inj_add, Nat2Z.inj_succ.
    rewrite Z.pow_succ_r by lia. lia.
Qed.

(** What [process] does, by the length of the file. *)
Lemma process_run (request : Request) (file : list N) (w : world) :
  originalFile request = Some file ->
  process request w
  = if (lambdaPayloadLimit <? 4 * ((Z.of_nat (length file) + 2) / 3))%Z
    then (Throw TooLargeImageException, w)
    else (Ok (base64 file), w).
Proof.
  intros H. unfold process. rewrite H. cbv zeta. rewrite base64_length.
  destruct (_ <? _)%Z; reflexivity.
Qed.

(** C2. A file whose encoding is longer than 6 * 1024 * 1024 characters:
    [process] throws [TooLargeImageException], whose status is the string
    ['413'] and not the number 413. *)
Theorem too_large_status_is_a_string (w : world) :
  process (set_originalFile (Some large_file) new_FileRequestHandler) w
  = (Throw (Obj (JStr (str "413")) (JStr (str "TooLargeImageException"))
                (message_of TooLargeImageException)), w) /\
  (lambdaPayloadLimit < Z.of_nat (length (base64 large_file)))%Z /\
  JStr (str "413") <> JNum 413.
Proof.
  split; [|split].
  - rewrite (process_run _ large_file) by reflexivity.
    unfold large_file. rewrite doubled_length. reflexivity.
  - rewrite base64_length. unfold large_file. rewrite doubled_length.
    vm_compute. reflexivity.
  - discriminate.
Qed.

(** ** The guard of the fallback image *)

Lemma replace_space_first (a b : jsstring) :
  replace_first re_space [] b a = remove_first_space a.
Proof.
  revert b. induction a as [|x r IH]; intros b; [reflexivity|].
  cbn [replace_first remove_first_space]. unfold exec_at, re_space.
  rewrite rmatch_space. destruct (is_space x); [reflexivity|].
  cbn [head]. f_equal. apply IH.
Qed.

Lemma remove_first_space_nonempty (s : jsstring) :
  strip_whitespace s <> [] -> remove_first_space s <> [].
Proof.
  unfold strip_whitespace. induction s as [|x r IH]; [auto|]. simpl.
  destruct (is_space x); simpl; [|discriminate].
  intros H ->. apply H. reflexivity.
Qed.

(** A value that is not blank passes the test of the guard. *)
Lemma env_nonblank_sufficient (s : jsstring) :
  strip_whitespace s <> [] -> env_nonblank (Some s) = true.
Proof.
  intros H. unfold env_nonblank, replace. rewrite replace_space_first.
  apply andb_true_iff. split.
  - destruct s; [exfalso; apply H; reflexivity | reflexivity].
  - apply negb_true_iff, bool_decide_eq_false.
    apply remove_first_space_nonempty. exact H.
Qed.

(** C3. With a fallback bucket of two blanks, which is empty once its white
    space is stripped, the guard holds, because only the first blank is
    taken out, and the fallback image is fetched from that bucket. *)
Theorem fallback_fetched_for_blank_bucket (s3 : S3.client) (err : thrown)
    (isAlb : jsval) (w : world) :
  strip_whitespace (str "  ") = [] /\
  replace re_space [] (str "  ") = str " " /\
  fallback_enabled env_blank_fallback_bucket = true /\
  calls (snd (fallback_response env_blank_fallback_bucket s3 err isAlb w))
  = (JStr (str "  "), JStr (str "fallback.png")) :: calls w.
Proof.
  repeat split. rewrite fallback_calls. reflexivity.
Qed.

(** ** Error responses *)

(** C8. When the flow fails with [err] and no fallback response is produced,
    the response is not base64-encoded; with a status on the error, it has
    that status and the error as JSON; without one, it has status 500 and
    the JSON of the fixed object with code [InternalError]. *)
Theorem error_response_without_fallback (env : Env) (s3 : S3.client)
    (imageRequest_setup : Event -> M Request)
    (imageHandler_process : Request -> M jsstring)
    (event : Event) (w w1 w2 : world) (err : thrown) :
  chosen_flow env s3 imageRequest_setup imageHandler_process event w
  = (Throw err, w1) ->
  fallback_response env s3 err (isAlb_of event) w1 = (Ok None, w2) ->
  exists response : Response.t,
    handler env s3 imageRequest_setup imageHandler_process event w
    = (Ok response, w2) /\
    Response.isBase64Encoded response = false /\
    (truthy (status_of err) = true ->
       Response.statusCode response = status_of err /\
       Response.body response = JSON_stringify err) /\
    (truthy (status_of err) = false ->
       Response.statusCode response = JNum 500 /\
       Response.body response
       = json_object
           [(str "message",
             JStr (str "Internal error. Please contact the system administrator."));
            (str "code", JStr (str "InternalError"));
            (str "status", JNum 500)]).
Proof.
  intros Hflow Hfb. exists (error_response env err (isAlb_of event)).
  split.
  - unfold handler, respond, try_catch, mbind, M_bind.
    unfold chosen_flow in Hflow. rewrite Hflow, Hfb. reflexivity.
  - unfold error_response.
    destruct (truthy (status_of err)); simpl;
      repeat split; intros; try discriminate; reflexivity.
Qed.

Lemma error_response_without_fallback_witness :
  let event := event_of (str "/download/%zz") in
  (chosen_flow env_one_bucket store_report image_setup_fails
     image_process_fails event world0
   = (Throw CannotFindFile,
      {| this := set_bucket (JStr (str "files")) new_FileRequestHandler;
         calls := [] |}) /\
   truthy (status_of CannotFindFile) = true) /\
  exists response w',
    handler env_one_bucket store_report image_setup_fails
      image_process_fails event world0 = (Ok response, w') /\
    Response.statusCode response = JNum 404 /\
    Response.body response = JSON_stringify CannotFindFile.
Proof.
  cbv zeta. split; [split; reflexivity|].
  destruct (error_response_without_fallback env_one_bucket store_report
              image_setup_fails image_process_fails
              (event_of (str "/download/%zz")) world0 _ _ CannotFindFile
              eq_refl eq_refl) as [response [H [_ [Hs _]]]].
  exists response. eexists. split; [exact H|]. exact (Hs eq_refl).
Defined.

(** The routing at two paths, one with [download] and one without. *)
Lemma handler_routes_on_download_witness :
  (contains_download (event_of (str "/download/csv_images/a.csv")) /\
   handler env_one_bucket store_report image_setup_fails image_process_fails
     (event_of (str "/download/csv_images/a.csv"))
   = respond env_one_bucket store_report true JUndefined
       (file_flow env_one_bucket store_report
          (event_of (str "/download/csv_images/a.csv")))) /\
  (~ contains_download (event_of (str "/fit-in/100x100/image.png")) /\
   handler env_one_bucket store_report image_setup_fails image_process_fails
     (event_of (str "/fit-in/100x100/image.png"))
   = respond env_one_bucket store_report false JUndefined
       (image_flow image_setup_fails image_process_fails
          (event_of (str "/fit-in/100x100/image.png")))).
Proof.
  assert (contains_download (event_of (str "/download/csv_images/a.csv"))) as H1.
  { exists (str "/"), (str "/csv_images/a.csv"). reflexivity. }
  assert (~ contains_download (event_of (str "/fit-in/100x100/image.png"))) as H2.
  { unfold contains_download. rewrite <- includes_spec. vm_compute. discriminate. }
  split; (split; [assumption|]).
  - exact (proj1 (handler_routes_on_download env_one_bucket store_report
                    image_setup_fails image_process_fails _) H1).
  - exact (proj2 (handler_routes_on_download env_one_bucket store_report
                    image_setup_fails image_process_fails _) H2).
Defined.

(** * Further properties *)

(** Two header names, or two literals, differ. *)
Ltac key_ne := let H := fresh in intros H; vm_compute in H; discriminate H.

(** Looks a literal name up through the insertions that build a header map. *)
Ltac lookup_headers :=
  repeat first
    [ rewrite lookup_insert_eq
    | rewrite lookup_insert_ne by key_ne
    | rewrite lookup_empty ].

(** ** The response headers *)

(** X1. The headers that [getResponseHeaders] builds: the two fixed ones
    always; the credentials header unless the request came through the load
    balancer; the origin header when [CORS_ENABLED] is [Yes]; the JSON
    content type for an error; and no other. *)
Theorem getResponseHeaders_lookup (env : Env) (isErr : bool) (isAlb : jsval) :
  getResponseHeaders env isErr isAlb !! str "Access-Control-Allow-Methods"
  = Some (JStr (str "GET")) /\
  getResponseHeaders env isErr isAlb !! str "Access-Control-Allow-Headers"
  = Some (JStr (str "Content-Type, Authorization")) /\
  getResponseHeaders env isErr isAlb !! str "Access-Control-Allow-Credentials"
  = (if truthy isAlb then None else Some (JBool true)) /\
  getResponseHeaders env isErr isAlb !! str "Access-Control-Allow-Origin"
  = (if bool_decide (CORS_ENABLED env = Some (str "Yes"))
     then Some (env_val (CORS_ORIGIN env)) else None) /\
  getResponseHeaders env isErr isAlb !! str "Content-Type"
  = (if isErr then Some (JStr (str "application/json")) else None) /\
  (forall name : jsstring,
     name <> str "Access-Control-Allow-Methods" ->
     name <> str "Access-Control-Allow-Headers" ->
     name <> str "Access-Control-Allow-Credentials" ->
     name <> str "Access-Control-Allow-Origin" ->
     name <> str "Content-Type" ->
     getResponseHeaders env isErr isAlb !! name = None).
Proof.
  unfold getResponseHeaders.
  assert (truthy match isAlb with JUndefined => JBool false | v => v end
          = truthy isAlb) as -> by (destruct isAlb; reflexivity).
  assert (bool_decide (env_val (CORS_ENABLED env) = JStr (str "Yes"))
          = bool_decide (CORS_ENABLED env = Some (str "Yes"))) as ->.
  { destruct (CORS_ENABLED env) as [s|]; [|reflexivity].
    apply bool_decide_ext. simpl. split; congruence. }
  destruct (truthy isAlb), (bool_decide (CORS_ENABLED env = Some (str "Yes"))),
    isErr; cbn [negb]; repeat split; try (lookup_headers; reflexivity);
    intros name H1 H2 H3 H4 H5;
    repeat (rewrite lookup_insert_ne by congruence); apply lookup_empty.
Qed.

Lemma getResponseHeaders_lookup_witness :
  str "Expires" <> str "Content-Type" /\
  getResponseHeaders env_one_bucket true (JBool true) !! str "Expires" = None.
Proof.
  split; [key_ne|].
  apply (proj2 (proj2 (proj2 (proj2 (proj2
           (getResponseHeaders_lookup env_one_bucket true (JBool true)))))));
    key_ne.
Defined.

Lemma fold_set_property_other (custom : list (jsstring * jsval))
    (h : gmap jsstring jsval) (name : jsstring) :
  ~ In name (map fst custom) ->
  fold_left (fun h kv => set_property (fst kv) (snd kv) h) custom h !! name
  = h !! name.
Proof.
  revert h. induction custom as [|[k v] custom IH]; intros h Hn; [reflexivity|].
  simpl in *. rewrite IH by tauto. unfold set_property.
  case_bool_decide; [reflexivity|]. apply lookup_insert_ne. tauto.
Qed.

Lemma fold_set_property_member (custom : list (jsstring * jsval))
    (h : gmap jsstring jsval) (name : jsstring) (v : jsval) :
  List.NoDup (map fst custom) -> In (name, v) custom ->
  name <> str "__proto__" ->
  fold_left (fun h kv => set_property (fst kv) (snd kv) h) custom h !! name
  = Some v.
Proof.
  revert h. induction custom as [|[k u] custom IH]; intros h Hd Hin Hp;
    [destruct Hin|].
  simpl in *. apply NoDup_cons_iff in Hd. destruct Hd as [Hk Hd].
  destruct Hin as [E|Hin].
  - injection E as -> ->. rewrite fold_set_property_other by exact Hk.
    unfold set_property. case_bool_decide; [contradiction|].
    apply lookup_insert_eq.
  - apply IH; assumption.
Qed.

Lemma fold_set_property_proto (custom : list (jsstring * jsval))
    (h : gmap jsstring jsval) :
  fold_left (fun h kv => set_property (fst kv) (snd kv) h) custom h
    !! str "__proto__" = h !! str "__proto__".
Proof.
  revert h. induction custom as [|[k v] custom IH]; intros h; [reflexivity|].
  simpl. rewrite IH. unfold set_property.
  case_bool_decide; [reflexivity|]. apply lookup_insert_ne. assumption.
Qed.

(** X2. On success, a custom header of the request, under any name but
    [__proto__], is in the response with the value the request gave it,
    whatever the handler had set under that name; every name the request
    does not set has what the response would have without custom headers;
    and a custom header named [__proto__] is not in the response. *)
Theorem custom_headers_override (env : Env) (isFile : bool) (isAlb : jsval)
    (request : Request) (processed : jsstring)
    (custom : list (jsstring * jsval)) :
  headers request = Some custom ->
  List.NoDup (map fst custom) ->
  (forall (name : jsstring) (v : jsval),
     In (name, v) custom -> name <> str "__proto__" ->
     Response.headers (success_response env isFile isAlb request processed)
       !! name = Some v) /\
  (forall name : jsstring,
     ~ In name (map fst custom) ->
     Response.headers (success_response env isFile isAlb request processed)
       !! name
     = Response.headers
         (success_response env isFile isAlb (without_custom_headers request)
            processed) !! name) /\
  Response.headers (success_response env isFile isAlb request processed)
    !! str "__proto__" = None.
Proof.
  intros Hc Hd. unfold success_response, custom_headers. rewrite Hc.
  cbn [Response.headers headers without_custom_headers ContentType Expires
       LastModified CacheControl].
  split; [|split].
  - intros name v Hin Hp. apply fold_set_property_member; assumption.
  - intros name Hn. apply fold_set_property_other. exact Hn.
  - rewrite fold_set_property_proto. unfold getResponseHeaders.
    destruct isFile, (negb _), (bool_decide _); lookup_headers; reflexivity.
Qed.

Lemma custom_headers_override_witness :
  (headers request_with_custom_header = Some sample_custom_headers /\
   List.NoDup (map fst sample_custom_headers) /\
   In (str "Content-Type", JStr (str "image/webp")) sample_custom_headers /\
   str "Content-Type" <> str "__proto__" /\
   ~ In (str "Cache-Control") (map fst sample_custom_headers)) /\
  Response.headers
    (success_response env_one_bucket false JUndefined
       request_with_custom_header []) !! str "Content-Type"
  = Some (JStr (str "image/webp")) /\
  Response.headers
    (success_response env_one_bucket false JUndefined
       request_with_custom_header []) !! str "Cache-Control"
  = Response.headers
      (success_response env_one_bucket false JUndefined
         (without_custom_headers request_with_custom_header) [])
      !! str "Cache-Control" /\
  Response.headers
    (success_response env_one_bucket false JUndefined
       request_with_custom_header []) !! str "__proto__" = None.
Proof.
  assert (List.NoDup (map fst sample_custom_headers)) as Hd.
  { repeat constructor; simpl; intros H; repeat destruct H as [H|H];
      try (vm_compute in H; discriminate H); exact H. }
  assert (In (str "Content-Type", JStr (str "image/webp")) sample_custom_headers)
    as Hin by (left; reflexivity).
  assert (str "Content-Type" <> str "__proto__") as Hne by key_ne.
  assert (~ In (str "Cache-Control") (map fst sample_custom_headers)) as Hnot.
  { simpl. intros H; repeat destruct H as [H|H];
      try (vm_compute in H; discriminate H); exact H. }
  destruct (custom_headers_override env_one_bucket false JUndefined
              request_with_custom_header [] sample_custom_headers eq_refl Hd)
    as [Hset [Hkeep Hproto]].
  split; [repeat split; assumption|]. split; [|split].
  - exact (Hset _ _ Hin Hne).
  - exact (Hkeep _ Hnot).
  - exact Hproto.
Defined.

(** ** The size of a download *)

(** X3. [process] returns the encoding of a file of at most 4718592 bytes
    and throws [TooLargeImageException] for every longer one; it leaves the
    handler and the store alone. *)
Theorem process_size_limit (request : Request) (file : list N) (w : world) :
  originalFile request = Some file ->
  process request w
  = if (4718592 <? Z.of_nat (length file))%Z
    then (Throw TooLargeImageException, w)
    else (Ok (base64 file), w).
Proof.
  intros H. rewrite (process_run request file w H).
  assert ((lambdaPayloadLimit <? 4 * ((Z.of_nat (length file) + 2) / 3))%Z
          = (4718592 <? Z.of_nat (length file))%Z) as ->; [|reflexivity].
  unfold lambdaPayloadLimit.
  destruct (Z.ltb_spec 4718592 (Z.of_nat (length file)));
    [apply Z.ltb_lt | apply Z.ltb_ge];
    Z.div_mod_to_equations; lia.
Qed.

Lemma process_size_limit_witness :
  originalFile (set_originalFile (Some (str "a,b")) new_FileRequestHandler)
  = Some (str "a,b") /\
  process (set_originalFile (Some (str "a,b")) new_FileRequestHandler) world0
  = (Ok (str "YSxi"), world0).
Proof.
  split; [reflexivity|].
  exact (process_size_limit
           (set_originalFile (Some (str "a,b")) new_FileRequestHandler)
           (str "a,b") world0 eq_refl).
Defined.

(** ** The list of source buckets *)

Lemma split_nonempty (c : jschar) (s : jsstring) : split c s <> [].
Proof.
  destruct s as [|x r]; simpl; [discriminate|].
  destruct (x =? c); [discriminate|]. destruct (split c r); discriminate.
Qed.

Lemma join_split (c : jschar) (s : jsstring) : join [c] (split c s) = s.
Proof.
  induction s as [|x r IH]; [reflexivity|]. simpl.
  pose proof (split_nonempty c r) as Hne.
  destruct (x =? c) eqn:E.
  - apply N.eqb_eq in E. subst x.
    destruct (split c r) as [|h t]; [congruence|]. simpl in *. congruence.
  - destruct (split c r) as [|h t]; [congruence|].
    destruct t; simpl in *; congruence.
Qed.

Lemma split_pieces (c : jschar) (s piece : jsstring) (y : jschar) :
  In piece (split c s) -> In y piece -> In y s /\ y <> c.
Proof.
  revert piece. induction s as [|x r IH]; intros piece Hp Hy; simpl in Hp.
  - destruct Hp as [<-|[]]. destruct Hy.
  - destruct (x =? c) eqn:E.
    + destruct Hp as [<-|Hp]; [destruct Hy|].
      destruct (IH piece Hp Hy). split; [right|]; assumption.
    + apply N.eqb_neq in E. destruct (split c r) as [|h t].
      * destruct Hp as [<-|[]]. destruct Hy as [<-|[]]. split; [left|]; auto.
      * destruct Hp as [<-|Hp].
        -- destruct Hy as [<-|Hy]; [split; [left|]; auto|].
           destruct (IH h (or_introl eq_refl) Hy). split; [right|]; assumption.
        -- destruct (IH piece (or_intror Hp) Hy). split; [right|]; assumption.
Qed.

(** X4. With [SOURCE_BUCKETS] set, [getAllowedSourceBuckets] returns a list
    that is never empty, whose entries joined by commas give back the value
    without its white space, and whose entries hold no white space and no
    comma. *)
Theorem source_buckets_list (env : Env) (w : world) (s : jsstring) :
  SOURCE_BUCKETS env = Some s ->
  exists buckets : list jsstring,
    getAllowedSourceBuckets env w = (Ok buckets, w) /\
    buckets <> [] /\
    join (str ",") buckets = strip_whitespace s /\
    (forall (b : jsstring) (y : jschar),
       In b buckets -> In y b -> is_space y = false /\ y <> chr ",").
Proof.
  intros H. unfold getAllowedSourceBuckets. rewrite H, replace_g_spaces.
  eexists. split; [reflexivity|]. split; [apply split_nonempty|].
  split; [apply (join_split (chr ",")) |].
  intros b y Hb Hy. destruct (split_pieces _ _ _ _ Hb Hy) as [Hin Hne].
  split; [|exact Hne].
  apply filter_In in Hin. destruct Hin as [_ Hs].
  apply negb_true_iff. exact Hs.
Qed.

Lemma source_buckets_list_witness :
  SOURCE_BUCKETS env_one_bucket = Some (str "files, spare") /\
  exists buckets : list jsstring,
    getAllowedSourceBuckets env_one_bucket world0 = (Ok buckets, world0) /\
    join (str ",") buckets = str "files,spare".
Proof.
  split; [reflexivity|].
  destruct (source_buckets_list env_one_bucket world0 (str "files, spare")
              eq_refl) as [buckets [H [_ [Hj _]]]].
  exists buckets. split; [exact H | exact Hj].
Defined.

(** ** The folder check, in full *)

Lemma first_entry_no_sep (c : jschar) (s : jsstring) :
  ~ In c s -> first_entry c s = s.
Proof.
  induction s as [|x r IH]; intros H; [reflexivity|]. simpl.
  destruct (x =? c) eqn:E.
  - exfalso. apply H. left. apply N.eqb_eq. exact E.
  - f_equal. apply IH. intros Hin. apply H. right. exact Hin.
Qed.

Lemma first_entry_app (c : jschar) (f rest : jsstring) :
  ~ In c f -> first_entry c (f ++ c :: rest) = f.
Proof.
  induction f as [|x r IH]; intros H; simpl.
  - rewrite N.eqb_refl. reflexivity.
  - destruct (x =? c) eqn:E.
    + exfalso. apply H. left. apply N.eqb_eq. exact E.
    + f_equal. apply IH. intros Hin. apply H. right. exact Hin.
Qed.

Lemma first_entry_split (c : jschar) (s : jsstring) :
  s = first_entry c s \/ exists rest, s = first_entry c s ++ c :: rest.
Proof.
  induction s as [|x r IH]; [left; reflexivity|]. simpl.
  destruct (x =? c) eqn:E.
  - right. exists r. apply N.eqb_eq in E. subst. reflexivity.
  - destruct IH as [IH|[rest IH]].
    + left. congruence.
    + right. exists rest. simpl. congruence.
Qed.

Lemma array_includes_In (a : list jsstring) (x : jsstring) :
  array_includes a x = true <-> In x a.
Proof.
  unfold array_includes. rewrite existsb_exists. split.
  - intros [y [Hy E]]. apply bool_decide_eq_true in E. subst. exact Hy.
  - intros H. exists x. split; [exact H | apply bool_decide_eq_true; reflexivity].
Qed.

Lemma allowed_folders_no_slash (folder : jsstring) :
  In folder allowed_folders -> ~ In (chr "/") folder.
Proof.
  intros [<-|[<-|[<-|[<-|[]]]]] H; vm_compute in H; intuition discriminate.
Qed.

(** X5. [checkAccess] never throws and never touches the store: it answers
    true exactly when the key is one of the four folder names or starts with
    one of them followed by a slash, and false for every other key. *)
Theorem checkAccess_grants (key : jsstring) (w : world) :
  exists b : bool,
    checkAccess key w = (Ok b, w) /\
    (b = true <->
     exists folder : jsstring,
       In folder allowed_folders /\
       (key = folder \/ exists rest, key = folder ++ chr "/" :: rest)).
Proof.
  rewrite checkAccess_run. eexists. split; [reflexivity|].
  rewrite array_includes_In. split.
  - intros H. exists (first_entry (chr "/") key). split; [exact H|].
    apply first_entry_split.
  - intros [folder [Hf Hk]].
    pose proof (allowed_folders_no_slash folder Hf) as Hs.
    destruct Hk as [->|[rest ->]].
    + rewrite first_entry_no_sep by exact Hs. exact Hf.
    + rewrite first_entry_app by exact Hs. exact Hf.
Qed.

(** ** What [setup] fetches *)

(** X6. [setup] calls the store at most once, with the first source bucket
    and a key whose folder is allowed; in every other case it makes no
    call at all. *)
Theorem setup_fetches_only_allowed (env : Env) (s3 : S3.client)
    (event : Event) (w : world) :
  calls (snd (setup env s3 event w)) = calls w \/
  exists sb k : jsstring,
    SOURCE_BUCKETS env = Some sb /\
    parseFileKey event w = (Ok k, w) /\
    array_includes allowed_folders (first_entry (chr "/") k) = true /\
    calls (snd (setup env s3 event w))
    = (JStr (first_entry (chr ",") (strip_whitespace sb)), JStr k) :: calls w.
Proof.
  rewrite setup_run, parseFileKey_run.
  destruct (SOURCE_BUCKETS env) as [sb|]; [|left; reflexivity]. cbv zeta.
  destruct (decodeURIComponent (s3_file_path event)) as [k|]; [|left; reflexivity].
  destruct (array_includes allowed_folders (first_entry (chr "/") k)) eqn:Ha;
    [|left; reflexivity].
  right. exists sb, k. split; [reflexivity|]. split; [reflexivity|].
  split; [exact Ha|].
  rewrite getOriginalFile_run. destruct (s3 _ _); reflexivity.
Qed.

(** ** The key of a plain download path *)

Lemma strips_download_no_token (prev : option jschar) (s : jsstring) :
  includes s token = false -> strips_download prev s s.
Proof.
  revert prev. induction s as [|c r IH]; intros prev H; [constructor|].
  cbn [includes] in H. apply orb_false_iff in H. destruct H as [Hs Hr].
  apply sd_keep; [|apply IH; exact Hr].
  unfold download_token_at. rewrite Hs, andb_false_r. reflexivity.
Qed.

Lemma delete_char_absent (c : jschar) (s : jsstring) :
  ~ In c s -> delete_char c s = s.
Proof.
  unfold delete_char. induction s as [|x r IH]; intros H; [reflexivity|].
  simpl. destruct (x =? c) eqn:E.
  - exfalso. apply H. left. apply N.eqb_eq. exact E.
  - simpl. f_equal. apply IH. intros Hin. apply H. right. exact Hin.
Qed.

(** X7. A path [/download/] followed by a key that starts with a word
    character and holds no [)], no percent sign and no further [download/]
    resolves to that key, unchanged. *)
Theorem parseFileKey_plain_download (event : Event) (w : world)
    (c : jschar) (k : jsstring) :
  path event = str "/download/" ++ c :: k ->
  is_word c = true ->
  ~ In (chr ")") (c :: k) ->
  ~ In percent (c :: k) ->
  includes (c :: k) token = false ->
  parseFileKey event w = (Ok (c :: k), w).
Proof.
  intros Hp Hw Hr Hpc Ht.
  destruct (s3_file_path_spec event) as [t [Hs E]].
  assert (strips_download None (path event) (chr "/" :: c :: k)) as Hs'.
  { rewrite Hp. apply (sd_keep None (chr "/") (token ++ c :: k)); [reflexivity|].
    apply sd_token.
    - unfold download_token_at. cbn. rewrite Hw. reflexivity.
    - apply strips_download_no_token. exact Ht. }
  rewrite (strips_download_fun _ _ _ _ Hs Hs') in E.
  assert (s3_file_path event = c :: k) as Hk.
  { rewrite E, delete_char_absent
      by (intros [H|H]; [vm_compute in H; discriminate H | exact (Hr H)]).
    cbn [drop_leading]. change (chr "/" =? chr "/") with true. cbv iota.
    destruct (c =? chr "/") eqn:Ec; [|reflexivity].
    apply N.eqb_eq in Ec. subst c. discriminate Hw. }
  rewrite parseFileKey_run, Hk.
  rewrite decode_without_percent by exact Hpc. reflexivity.
Qed.

Lemma parseFileKey_plain_download_witness :
  (path (event_of (str "/download/csv_images/a.csv"))
   = str "/download/" ++ chr "c" :: str "sv_images/a.csv" /\
   is_word (chr "c") = true /\
   includes (str "csv_images/a.csv") token = false) /\
  parseFileKey (event_of (str "/download/csv_images/a.csv")) world0
  = (Ok (str "csv_images/a.csv"), world0).
Proof.
  split; [repeat split|].
  apply (parseFileKey_plain_download
           (event_of (str "/download/csv_images/a.csv")) world0
           (chr "c") (str "sv_images/a.csv")); try reflexivity;
    vm_compute; intuition discriminate.
Defined.

(** ** A path that ends in a percent sign *)

Lemma strips_download_last (prev : option jschar) (s t : jsstring) (p : jschar) :
  strips_download prev s t -> last s = Some p -> last t = Some p.
Proof.
  induction 1 as [prev|prev rest out T _ IH|prev c rest out T H IH]; intros L.
  - exact L.
  - apply IH. rewrite last_app in L.
    destruct (last rest) as [y|] eqn:Lr; [exact L|].
    apply last_None in Lr. subst rest. unfold download_token_at in T.
    change (word_at (skipn 9 (token ++ []))) with false in T.
    rewrite andb_false_r in T. discriminate T.
  - rewrite last_cons in L |- *.
    destruct (last rest) as [y|] eqn:Lr.
    + rewrite (IH L). reflexivity.
    + apply last_None in Lr. subst rest. inversion H; subst; exact L.
Qed.

Lemma filter_last (f : jschar -> bool) (s : jsstring) (p : jschar) :
  last s = Some p -> f p = true -> last (List.filter f s) = Some p.
Proof.
  intros L Hp. apply last_Some in L. destruct L as [l' ->].
  rewrite List.filter_app. simpl. rewrite Hp. apply last_snoc.
Qed.

Lemma drop_leading_last (c : jschar) (s : jsstring) (p : jschar) :
  last s = Some p -> p <> c -> last (drop_leading c s) = Some p.
Proof.
  intros L Hp. induction s as [|x r IH]; [exact L|]. simpl.
  destruct (x =? c) eqn:E; [|exact L].
  apply N.eqb_eq in E. subst x. apply IH.
  rewrite last_cons in L. destruct (last r); [exact L | congruence].
Qed.

Lemma unescape_trailing_percent (n : nat) :
  forall s : jsstring,
    (length s <= n)%nat -> last s = Some percent -> unescape s = None.
Proof.
  induction n as [|n IH]; intros s Hn L.
  - destruct s; [discriminate L | simpl in Hn; lia].
  - destruct s as [|c r]; [discriminate L|]. cbn [unescape].
    destruct (c =? percent) eqn:E.
    + destruct r as [|h1 [|h2 r']]; try reflexivity.
      destruct (hex_val h1) as [a|]; [|reflexivity].
      destruct (hex_val h2) as [b|] eqn:H2; [|reflexivity].
      rewrite IH; [reflexivity | simpl in Hn |- *; lia |].
      rewrite !last_cons in L. destruct (last r') as [y|]; [exact L|].
      injection L as ->. discriminate H2.
    + rewrite IH; [reflexivity | simpl in Hn; lia |].
      rewrite last_cons in L. destruct (last r) as [y|]; [exact L|].
      injection L as ->. rewrite N.eqb_refl in E. discriminate E.
Qed.

(** X8. A path that ends in a percent sign is answered by [parseFileKey]
    with the error of status 404 and code [FileEdits::CannotFindFile]. *)
Theorem parseFileKey_trailing_percent (event : Event) (w : world) :
  last (path event) = Some percent ->
  parseFileKey event w
  = (Throw (Obj (JNum 404) (JStr (str "FileEdits::CannotFindFile"))
                (message_of CannotFindFile)), w).
Proof.
  intros L. rewrite parseFileKey_run.
  destruct (s3_file_path_spec event) as [t [Hs ->]].
  unfold decodeURIComponent.
  rewrite (unescape_trailing_percent _ _ (le_n _)); [reflexivity|].
  apply drop_leading_last; [|discriminate].
  apply filter_last; [|reflexivity].
  exact (strips_download_last _ _ _ _ Hs L).
Qed.

Lemma parseFileKey_trailing_percent_witness :
  last (path (event_of (str "/download/csv_images/50%"))) = Some percent /\
  parseFileKey (event_of (str "/download/csv_images/50%")) world0
  = (Throw CannotFindFile, world0).
Proof.
  split; [reflexivity|].
  exact (parseFileKey_trailing_percent
           (event_of (str "/download/csv_images/50%")) world0 eq_refl).
Defined.

(** ** The path is only ever shortened *)

Lemma strips_download_sublist (prev : option jschar) (s t : jsstring) :
  strips_download prev s t -> sublist t s.
Proof.
  induction 1 as [prev|prev rest out _ _ IH|prev c rest out _ _ IH].
  - constructor.
  - apply sublist_inserts_l. exact IH.
  - apply sublist_skip. exact IH.
Qed.

Lemma filter_sublist (f : jschar -> bool) (s : jsstring) :
  sublist (List.filter f s) s.
Proof.
  induction s as [|x r IH]; [constructor|]. simpl.
  destruct (f x); [apply sublist_skip | apply sublist_cons]; exact IH.
Qed.

Lemma drop_leading_sublist (c : jschar) (s : jsstring) :
  sublist (drop_leading c s) s.
Proof.
  induction s as [|x r IH]; [constructor|]. simpl.
  destruct (x =? c); [apply sublist_cons; exact IH | reflexivity].
Qed.

Lemma drop_leading_head (c : jschar) (s : jsstring) :
  head (drop_leading c s) <> Some c.
Proof.
  induction s as [|x r IH]; [discriminate|]. simpl.
  destruct (x =? c) eqn:E; [exact IH|].
  simpl. intros H. injection H as ->. rewrite N.eqb_refl in E. discriminate E.
Qed.

(** X9. The text that [parseFileKey] decodes is the path with characters
    left out: nothing is added or reordered; and it never starts with a
    slash. *)
Theorem s3_file_path_shortens (event : Event) :
  sublist (s3_file_path event) (path event) /\
  head (s3_file_path event) <> Some (chr "/").
Proof.
  destruct (s3_file_path_spec event) as [t [Hs ->]]. split.
  - etransitivity; [apply drop_leading_sublist|].
    etransitivity; [apply filter_sublist|].
    exact (strips_download_sublist _ _ _ Hs).
  - apply drop_leading_head.
Qed.

(** ** The file flow, end to end *)

Lemma contains_download_includes (event : Event) :
  contains_download event -> includes (path event) (str "download") = true.
Proof. intros H. apply includes_spec. exact H. Qed.

Lemma handler_file_flow (env : Env) (s3 : S3.client)
    (imageRequest_setup : Event -> M Request)
    (imageHandler_process : Request -> M jsstring) (event : Event) :
  contains_download event ->
  handler env s3 imageRequest_setup imageHandler_process event
  = respond env s3 true (isAlb_of event) (file_flow env s3 event).
Proof.
  intros H. unfold handler. rewrite (contains_download_includes event H).
  reflexivity.
Qed.

Lemma file_flow_run (env : Env) (s3 : S3.client) (event : Event) (w : world) :
  file_flow env s3 event w
  = match setup env s3 event
            {| this := new_FileRequestHandler; calls := calls w |} with
    | (Ok request, w1) =>
        match process request w1 with
        | (Ok body, w2) => (Ok (request, body), w2)
        | (Throw e, w2) => (Throw e, w2)
        end
    | (Throw e, w1) => (Throw e, w1)
    end.
Proof.
  unfold file_flow, mbind, M_bind, set_this, mret, M_ret.
  destruct (setup _ _ _ _) as [[request|e] w1]; [|reflexivity].
  destruct (process request w1) as [[body|e] w2]; reflexivity.
Qed.

Lemma respond_run (env : Env) (s3 : S3.client) (isFile : bool) (isAlb : jsval)
    (flow : M (Request * jsstring)) (w : world) :
  respond env s3 isFile isAlb flow w
  = match flow w with
    | (Ok rp, w1) => (Ok (success_response env isFile isAlb (fst rp) (snd rp)), w1)
    | (Throw err, w1) =>
        match fallback_response env s3 err isAlb w1 with
        | (Ok (Some response), w2) => (Ok response, w2)
        | (Ok None, w2) => (Ok (error_response env err isAlb), w2)
        | (Throw e, w2) => (Throw e, w2)
        end
    end.
Proof.
  unfold respond, try_catch, mbind, M_bind, mret, M_ret.
  destruct (flow w) as [[rp|err] w1]; [reflexivity|].
  destruct (fallback_response env s3 err isAlb w1) as [[[r|]|e] w2]; reflexivity.
Qed.

(** X10. A download that succeeds: for a path with [download] whose key
    lies in an allowed folder, an object of at most 4718592 bytes comes
    back with status 200, base64-encoded, as an attachment, with the
    content type of the object and its cache control (or the default); the
    [Expires] and [Last-Modified] headers are set to [undefined], and the
    store has been called once. *)
Theorem handler_file_success (env : Env) (s3 : S3.client)
    (imageRequest_setup : Event -> M Request)
    (imageHandler_process : Request -> M jsstring)
    (event : Event) (w : world) (sb k : jsstring) (obj : S3.object) :
  contains_download event ->
  SOURCE_BUCKETS env = Some sb ->
  decodeURIComponent (s3_file_path event) = Some k ->
  array_includes allowed_folders (first_entry (chr "/") k) = true ->
  s3 (JStr (first_entry (chr ",") (strip_whitespace sb))) (JStr k) = inl obj ->
  (Z.of_nat (length (S3.Body obj)) <= 4718592)%Z ->
  exists (response : Response.t) (w' : world),
    handler env s3 imageRequest_setup imageHandler_process event w
    = (Ok response, w') /\
    calls w'
    = (JStr (first_entry (chr ",") (strip_whitespace sb)), JStr k) :: calls w /\
    Response.statusCode response = JNum 200 /\
    Response.isBase64Encoded response = true /\
    Response.body response = base64 (S3.Body obj) /\
    Response.headers response !! str "Content-Disposition"
    = Some (JStr (str "attachment")) /\
    Response.headers response !! str "Content-Type"
    = Some (S3.ContentType obj) /\
    Response.headers response !! str "Cache-Control"
    = Some (if truthy (S3.CacheControl obj) then S3.CacheControl obj
            else JStr (str "max-age=31536000,public")) /\
    Response.headers response !! str "Expires" = Some JUndefined /\
    Response.headers response !! str "Last-Modified" = Some JUndefined.
Proof.
  intros Hd Hb Hk Ha Hs Hl.
  rewrite (handler_file_flow _ _ _ _ _ Hd), respond_run, file_flow_run.
  rewrite setup_run, Hb. cbv zeta. rewrite Hk, Ha, getOriginalFile_run, Hs.
  cbn [this calls].
  rewrite (process_run _ (S3.Body obj)) by reflexivity.
  replace (lambdaPayloadLimit <? _)%Z with false.
  2:{ symmetry. apply Z.ltb_ge. unfold lambdaPayloadLimit.
      Z.div_mod_to_equations. lia. }
  eexists _, _. split; [reflexivity|].
  unfold success_response, custom_headers.
  cbn [fst snd Response.statusCode Response.isBase64Encoded Response.body
       Response.headers calls headers ContentType CacheControl Expires
       LastModified set_originalFile set_CacheControl set_ContentType set_key
       set_bucket new_FileRequestHandler].
  repeat split; lookup_headers; reflexivity.
Qed.

Lemma handler_file_success_witness :
  (contains_download (event_of (str "/download/csv_images/a.csv")) /\
   s3_file_path (event_of (str "/download/csv_images/a.csv"))
   = str "csv_images/a.csv") /\
  exists (response : Response.t) (w' : world),
    handler env_one_bucket store_report image_setup_fails image_process_fails
      (event_of (str "/download/csv_images/a.csv")) world0
    = (Ok response, w') /\
    calls w' = [(JStr (str "files"), JStr (str "csv_images/a.csv"))] /\
    Response.statusCode response = JNum 200 /\
    Response.body response = str "YSxi".
Proof.
  assert (contains_download (event_of (str "/download/csv_images/a.csv"))) as Hd.
  { exists (str "/"), (str "/csv_images/a.csv"). reflexivity. }
  split; [split; [exact Hd | reflexivity]|].
  destruct (handler_file_success env_one_bucket store_report image_setup_fails
              image_process_fails (event_of (str "/download/csv_images/a.csv"))
              world0 (str "files, spare") (str "csv_images/a.csv") report_csv
              Hd eq_refl eq_refl eq_refl eq_refl ltac:(vm_compute; discriminate))
    as [response [w' [H [Hc [Hst [_ [Hbody _]]]]]]].
  exists response, w'. repeat split; assumption.
Defined.

(** ** What a file request reads from the store *)

Lemma process_world (request : Request) (w : world) :
  snd (process request w) = w.
Proof.
  unfold process. destruct (originalFile request); [|reflexivity].
  cbv zeta. destruct (_ <? _)%Z; reflexivity.
Qed.

Lemma setup_calls_member (env : Env) (s3 : S3.client) (event : Event)
    (w : world) (c : jsval * jsval) :
  In c (calls (snd (setup env s3 event w))) ->
  In c (calls w) \/
  exists sb k : jsstring,
    SOURCE_BUCKETS env = Some sb /\
    c = (JStr (first_entry (chr ",") (strip_whitespace sb)), JStr k) /\
    array_includes allowed_folders (first_entry (chr "/") k) = true.
Proof.
  rewrite setup_run.
  destruct (SOURCE_BUCKETS env) as [sb|]; [|left; assumption]. cbv zeta.
  destruct (decodeURIComponent (s3_file_path event)) as [k|]; [|left; assumption].
  destruct (array_includes allowed_folders (first_entry (chr "/") k)) eqn:Ha;
    [|left; assumption].
  rewrite getOriginalFile_run.
  assert (forall l, In c ((JStr (first_entry (chr ",") (strip_whitespace sb)),
                           JStr k) :: l) ->
                    In c l \/ exists sb' k' : jsstring,
                      Some sb = Some sb' /\
                      c = (JStr (first_entry (chr ",") (strip_whitespace sb')),
                           JStr k') /\
                      array_includes allowed_folders (first_entry (chr "/") k')
                      = true) as Hcase.
  { intros l [<-|H]; [right; exists sb, k; auto | left; exact H]. }
  destruct (s3 _ _); intros H; apply Hcase; exact H.
Qed.

Lemma respond_world (env : Env) (s3 : S3.client) (isFile : bool)
    (isAlb : jsval) (flow : M (Request * jsstring)) (w : world) :
  snd (respond env s3 isFile isAlb flow w)
  = match flow w with
    | (Ok _, w1) => w1
    | (Throw err, w1) => snd (fallback_response env s3 err isAlb w1)
    end.
Proof.
  rewrite respond_run. destruct (flow w) as [[rp|err] w1]; [reflexivity|].
  destruct (fallback_response env s3 err isAlb w1) as [[[r|]|e] w2]; reflexivity.
Qed.

Lemma file_flow_world (env : Env) (s3 : S3.client) (event : Event) (w : world) :
  snd (file_flow env s3 event w)
  = snd (setup env s3 event
           {| this := new_FileRequestHandler; calls := calls w |}).
Proof.
  rewrite file_flow_run. destruct (setup _ _ _ _) as [[request|e] w1];
    [|reflexivity].
  pose proof (process_world request w1) as H.
  destruct (process request w1) as [[body|e] w2]; exact H.
Qed.

(** X11. On a file request the handler reads nothing from the store but an
    object of an allowed folder in the first source bucket and the fallback
    image. *)
Theorem handler_file_calls (env : Env) (s3 : S3.client)
    (imageRequest_setup : Event -> M Request)
    (imageHandler_process : Request -> M jsstring)
    (event : Event) (w : world) (c : jsval * jsval) :
  contains_download event ->
  In c (calls (snd (handler env s3 imageRequest_setup imageHandler_process
                      event w))) ->
  In c (calls w) \/
  c = (fallback_bucket env, fallback_key env) \/
  exists sb k : jsstring,
    SOURCE_BUCKETS env = Some sb /\
    c = (JStr (first_entry (chr ",") (strip_whitespace sb)), JStr k) /\
    array_includes allowed_folders (first_entry (chr "/") k) = true.
Proof.
  intros Hd. rewrite (handler_file_flow _ _ _ _ _ Hd), respond_world.
  pose proof (file_flow_world env s3 event w) as Hw.
  destruct (file_flow env s3 event w) as [[rp|err] w1]; simpl in Hw; subst w1.
  - intros H. apply setup_calls_member in H. tauto.
  - rewrite fallback_calls. destruct (fallback_enabled env).
    + intros [<-|H]; [tauto|]. apply setup_calls_member in H. tauto.
    + intros H. apply setup_calls_member in H. tauto.
Qed.

Lemma handler_file_calls_witness :
  contains_download (event_of (str "/download/csv_images/a.csv")) /\
  In (JStr (str "files"), JStr (str "csv_images/a.csv"))
    (calls (snd (handler env_one_bucket store_report image_setup_fails
                   image_process_fails
                   (event_of (str "/download/csv_images/a.csv")) world0))) /\
  (In (JStr (str "files"), JStr (str "csv_images/a.csv")) (calls world0) \/
   (JStr (str "files"), JStr (str "csv_images/a.csv"))
   = (fallback_bucket env_one_bucket, fallback_key env_one_bucket) \/
   exists sb k : jsstring,
     SOURCE_BUCKETS env_one_bucket = Some sb /\
     (JStr (str "files"), JStr (str "csv_images/a.csv"))
     = (JStr (first_entry (chr ",") (strip_whitespace sb)), JStr k) /\
     array_includes allowed_folders (first_entry (chr "/") k) = true).
Proof.
  assert (contains_download (event_of (str "/download/csv_images/a.csv"))) as Hd.
  { exists (str "/"), (str "/csv_images/a.csv"). reflexivity. }
  assert (In (JStr (str "files"), JStr (str "csv_images/a.csv"))
            (calls (snd (handler env_one_bucket store_report image_setup_fails
                           image_process_fails
                           (event_of (str "/download/csv_images/a.csv"))
                           world0)))) as Hin.
  { left. reflexivity. }
  split; [exact Hd|]. split; [exact Hin|].
  exact (handler_file_calls env_one_bucket store_report image_setup_fails
           image_process_fails (event_of (str "/download/csv_images/a.csv"))
           world0 _ Hd Hin).
Defined.

(** ** The credentials header *)

Lemma getResponseHeaders_credentials (env : Env) (isErr : bool) (isAlb : jsval) :
  getResponseHeaders env isErr isAlb !! str "Access-Control-Allow-Credentials"
  = (if truthy isAlb then None else Some (JBool true)).
Proof.
  unfold getResponseHeaders.
  assert (truthy match isAlb with JUndefined => JBool false | v => v end
          = truthy isAlb) as -> by (destruct isAlb; reflexivity).
  destruct (truthy isAlb), (bool_decide _), isErr; cbn [negb];
    lookup_headers; reflexivity.
Qed.

Lemma file_flow_custom_headers (env : Env) (s3 : S3.client) (event : Event)
    (w w1 : world) (request : Request) (body : jsstring) :
  file_flow env s3 event w = (Ok (request, body), w1) ->
  custom_headers request = None.
Proof.
  rewrite file_flow_run, setup_run.
  destruct (SOURCE_BUCKETS env) as [sb|]; [|discriminate]. cbv zeta.
  destruct (decodeURIComponent (s3_file_path event)) as [k|]; [|discriminate].
  destruct (array_includes allowed_folders (first_entry (chr "/") k));
    [|discriminate].
  rewrite getOriginalFile_run. destruct (s3 _ _) as [obj|e]; [|discriminate].
  destruct (process _ _) as [[b|e] w2]; [|discriminate].
  intros H. injection H as <- _ _. reflexivity.
Qed.

Lemma fallback_response_run (env : Env) (s3 : S3.client) (err : thrown)
    (isAlb : jsval) (w : world) :
  fallback_response env s3 err isAlb w
  = if fallback_enabled env then
      match s3 (fallback_bucket env) (fallback_key env) with
      | inl img =>
          (Ok (Some
                 {| Response.statusCode :=
                      if truthy (status_of err) then status_of err else JNum 500;
                    Response.isBase64Encoded := true;
                    Response.headers :=
                      <[str "Cache-Control" := JStr (str "max-age=31536000,public")]>
                        (<[str "Last-Modified" := S3.LastModified img]>
                           (<[str "Content-Type" := S3.ContentType img]>
                              (getResponseHeaders env false isAlb)));
                    Response.body := base64 (S3.Body img) |}),
           logged (fallback_bucket env) (fallback_key env) w)
      | inr _ => (Ok None, logged (fallback_bucket env) (fallback_key env) w)
      end
    else (Ok None, w).
Proof.
  unfold fallback_response. destruct (fallback_enabled env); [|reflexivity].
  unfold try_catch, mbind, M_bind, mret, M_ret, getObject.
  destruct (s3 _ _); reflexivity.
Qed.

Lemma respond_file_credentials (env : Env) (s3 : S3.client) (event : Event)
    (isAlb : jsval) (w : world) :
  match respond env s3 true isAlb (file_flow env s3 event) w with
  | (Ok response, _) =>
      Response.headers response !! str "Access-Control-Allow-Credentials"
      = (if truthy isAlb then None else Some (JBool true))
  | (Throw _, _) => True
  end.
Proof.
  rewrite respond_run.
  destruct (file_flow env s3 event w) as [[[request body]|err] w1] eqn:Hf.
  - cbn [fst snd]. unfold success_response.
    rewrite (file_flow_custom_headers _ _ _ _ _ _ _ Hf).
    cbn [Response.headers].
    rewrite <- (getResponseHeaders_credentials env false isAlb).
    generalize (getResponseHeaders env false isAlb). intros h.
    lookup_headers. reflexivity.
  - rewrite fallback_response_run. destruct (fallback_enabled env).
    + destruct (s3 _ _) as [img|e].
      * cbn [Response.headers].
        rewrite <- (getResponseHeaders_credentials env false isAlb).
        generalize (getResponseHeaders env false isAlb). intros h.
        lookup_headers. reflexivity.
      * unfold error_response. destruct (truthy (status_of err));
          apply getResponseHeaders_credentials.
    + unfold error_response. destruct (truthy (status_of err));
        apply getResponseHeaders_credentials.
Qed.

(** X12. Every response to a file request carries the header
    [Access-Control-Allow-Credentials: true], unless the event came through
    the load balancer ([requestContext.elb]), in which case no response
    carries that header. *)
Theorem handler_credentials_header (env : Env) (s3 : S3.client)
    (imageRequest_setup : Event -> M Request)
    (imageHandler_process : Request -> M jsstring)
    (event : Event) (w w' : world) (response : Response.t) :
  contains_download event ->
  handler env s3 imageRequest_setup imageHandler_process event w
  = (Ok response, w') ->
  Response.headers response !! str "Access-Control-Allow-Credentials"
  = match requestContext event with
    | Some true => None
    | _ => Some (JBool true)
    end.
Proof.
  intros Hd H. rewrite (handler_file_flow _ _ _ _ _ Hd) in H.
  pose proof (respond_file_credentials env s3 event (isAlb_of event) w) as Hc.
  rewrite H in Hc. rewrite Hc.
  unfold isAlb_of. destruct (requestContext event) as [[|]|]; reflexivity.
Qed.

Lemma handler_credentials_header_witness :
  let event := {| path := str "/download/secret/a.csv";
                  requestContext := Some true |} in
  contains_download event /\
  exists response w',
    handler env_one_bucket store_report image_setup_fails image_process_fails
      event world0 = (Ok response, w') /\
    Response.headers response !! str "Access-Control-Allow-Credentials" = None.
Proof.
  cbv zeta.
  assert (contains_download {| path := str "/download/secret/a.csv";
                               requestContext := Some true |}) as Hd.
  { exists (str "/"), (str "/secret/a.csv"). reflexivity. }
  split; [exact Hd|]. eexists _, _. split; [reflexivity|].
  exact (handler_credentials_header env_one_bucket store_report
           image_setup_fails image_process_fails _ world0 _ _ Hd eq_refl).
Defined.

(** ** The answers to a download that fails *)

Lemma handler_file_failure (env : Env) (s3 : S3.client)
    (imageRequest_setup : Event -> M Request)
    (imageHandler_process : Request -> M jsstring)
    (event : Event) (w w1 : world) (err : thrown) :
  contains_download event ->
  fallback_enabled env = false ->
  setup env s3 event {| this := new_FileRequestHandler; calls := calls w |}
  = (Throw err, w1) ->
  handler env s3 imageRequest_setup imageHandler_process event w
  = (Ok (error_response env err (isAlb_of event)), w1).
Proof.
  intros Hd Hf Hs.
  rewrite (handler_file_flow _ _ _ _ _ Hd), respond_run, file_flow_run, Hs.
  rewrite fallback_response_run, Hf. reflexivity.
Qed.

Lemma error_response_content_type (env : Env) (err : thrown) (isAlb : jsval) :
  Response.headers (error_response env err isAlb) !! str "Content-Type"
  = Some (JStr (str "application/json")).
Proof.
  unfold error_response, getResponseHeaders.
  destruct (truthy (status_of err)); cbn [Response.headers];
    apply lookup_insert_eq.
Qed.

(** X13. Without a fallback image, a file request for a key outside the
    allowed folders is answered with status 500 and the JSON of the fixed
    [InternalError] object, and the store is not called. *)
Theorem handler_denied_folder (env : Env) (s3 : S3.client)
    (imageRequest_setup : Event -> M Request)
    (imageHandler_process : Request -> M jsstring)
    (event : Event) (w : world) (sb k : jsstring) :
  contains_download event ->
  fallback_enabled env = false ->
  SOURCE_BUCKETS env = Some sb ->
  decodeURIComponent (s3_file_path event) = Some k ->
  array_includes allowed_folders (first_entry (chr "/") k) = false ->
  exists (response : Response.t) (w' : world),
    handler env s3 imageRequest_setup imageHandler_process event w
    = (Ok response, w') /\
    calls w' = calls w /\
    Response.statusCode response = JNum 500 /\
    Response.isBase64Encoded response = false /\
    Response.body response = json_object InternalError /\
    Response.headers response !! str "Content-Type"
    = Some (JStr (str "application/json")).
Proof.
  intros Hd Hf Hb Hk Ha.
  eassert (setup env s3 event
             {| this := new_FileRequestHandler; calls := calls w |}
           = (Throw _, _)) as Hs.
  { rewrite setup_run, Hb. cbv zeta. rewrite Hk, Ha. reflexivity. }
  rewrite (handler_file_failure _ _ imageRequest_setup imageHandler_process
             _ _ _ _ Hd Hf Hs).
  eexists _, _. split; [reflexivity|].
  split; [reflexivity|]. split; [reflexivity|]. split; [reflexivity|].
  split; [reflexivity|]. apply error_response_content_type.
Qed.

Lemma handler_denied_folder_witness :
  (contains_download (event_of (str "/download/secret/a.csv")) /\
   decodeURIComponent (s3_file_path (event_of (str "/download/secret/a.csv")))
   = Some (str "secret/a.csv") /\
   array_includes allowed_folders (first_entry (chr "/") (str "secret/a.csv"))
   = false) /\
  exists (response : Response.t) (w' : world),
    handler env_one_bucket store_report image_setup_fails image_process_fails
      (event_of (str "/download/secret/a.csv")) world0
    = (Ok response, w') /\
    calls w' = [] /\
    Response.statusCode response = JNum 500.
Proof.
  assert (contains_download (event_of (str "/download/secret/a.csv"))) as Hd.
  { exists (str "/"), (str "/secret/a.csv"). reflexivity. }
  split; [repeat split; exact Hd|].
  destruct (handler_denied_folder env_one_bucket store_report image_setup_fails
              image_process_fails (event_of (str "/download/secret/a.csv"))
              world0 (str "files, spare") (str "secret/a.csv")
              Hd eq_refl eq_refl eq_refl eq_refl)
    as [response [w' [H [Hc [Hs _]]]]].
  exists response, w'. repeat split; assumption.
Defined.

(** X14. Without a fallback image, a file request whose object the store
    does not return is answered with 404 when the code of the store is
    [NoSuchKey] and with 500 otherwise; the body is the JSON of the status,
    the code of the store and its message followed by the key. *)
Theorem handler_store_error (env : Env) (s3 : S3.client)
    (imageRequest_setup : Event -> M Request)
    (imageHandler_process : Request -> M jsstring)
    (event : Event) (w : world) (sb k : jsstring) (err : thrown) :
  contains_download event ->
  fallback_enabled env = false ->
  SOURCE_BUCKETS env = Some sb ->
  decodeURIComponent (s3_file_path event) = Some k ->
  array_includes allowed_folders (first_entry (chr "/") k) = true ->
  s3 (JStr (first_entry (chr ",") (strip_whitespace sb))) (JStr k) = inr err ->
  exists (response : Response.t) (w' : world),
    handler env s3 imageRequest_setup imageHandler_process event w
    = (Ok response, w') /\
    Response.statusCode response
    = (if bool_decide (code_of err = JStr (str "NoSuchKey"))
       then JNum 404 else JNum 500) /\
    Response.isBase64Encoded response = false /\
    Response.body response
    = json_object
        [(str "status", Response.statusCode response);
         (str "code", code_of err);
         (str "message",
          JStr (to_string (message_of err) ++ str " File Key : " ++ k))].
Proof.
  intros Hd Hf Hb Hk Ha Hs.
  eassert (setup env s3 event
             {| this := new_FileRequestHandler; calls := calls w |}
           = (Throw _, _)) as Hsetup.
  { rewrite setup_run, Hb. cbv zeta.
    rewrite Hk, Ha, getOriginalFile_run, Hs. reflexivity. }
  rewrite (handler_file_failure _ _ imageRequest_setup imageHandler_process
             _ _ _ _ Hd Hf Hsetup).
  eexists _, _. split; [reflexivity|].
  assert ((if bool_decide (JStr (str "NoSuchKey") = code_of err)
           then JNum 404 else JNum 500)
          = (if bool_decide (code_of err = JStr (str "NoSuchKey"))
             then JNum 404 else JNum 500)) as ->
    by (repeat case_bool_decide; congruence).
  unfold error_response. cbn [status_of to_string].
  destruct (bool_decide (code_of err = JStr (str "NoSuchKey")));
    repeat split.
Qed.

Lemma handler_store_error_witness :
  (contains_download (event_of (str "/download/csv_images/a.csv")) /\
   store_empty (JStr (str "files")) (JStr (str "csv_images/a.csv"))
   = inr NoSuchKey) /\
  exists (response : Response.t) (w' : world),
    handler env_one_bucket store_empty image_setup_fails image_process_fails
      (event_of (str "/download/csv_images/a.csv")) world0
    = (Ok response, w') /\
    Response.statusCode response = JNum 404.
Proof.
  assert (contains_download (event_of (str "/download/csv_images/a.csv"))) as Hd.
  { exists (str "/"), (str "/csv_images/a.csv"). reflexivity. }
  split; [split; [exact Hd | reflexivity]|].
  destruct (handler_store_error env_one_bucket store_empty image_setup_fails
              image_process_fails (event_of (str "/download/csv_images/a.csv"))
              world0 (str "files, spare") (str "csv_images/a.csv") NoSuchKey
              Hd eq_refl eq_refl eq_refl eq_refl eq_refl)
    as [response [w' [H [Hs _]]]].
  exists response, w'. split; [exact H | exact Hs].
Defined.

(** ** The image flow *)

(** X15. A path without [download] never reaches the file handler: when the
    image flow returns a request and a body, the response has status 200
    and that body, and, unless the request sets headers of its own, the
    content type and cache control of the request and no
    [Content-Disposition] header. *)
Theorem handler_image_success (env : Env) (s3 : S3.client)
    (imageRequest_setup : Event -> M Request)
    (imageHandler_process : Request -> M jsstring)
    (event : Event) (w w1 w2 : world) (request : Request) (body : jsstring) :
  ~ contains_download event ->
  imageRequest_setup event w = (Ok request, w1) ->
  imageHandler_process request w1 = (Ok body, w2) ->
  exists response : Response.t,
    handler env s3 imageRequest_setup imageHandler_process event w
    = (Ok response, w2) /\
    Response.statusCode response = JNum 200 /\
    Response.isBase64Encoded response = true /\
    Response.body response = body /\
    (headers request = None ->
       Response.headers response !! str "Content-Type"
       = Some (ContentType request) /\
       Response.headers response !! str "Cache-Control"
       = Some (CacheControl request) /\
       Response.headers response !! str "Content-Disposition" = None).
Proof.
  intros Hd Hs Hp.
  assert (includes (path event) (str "download") = false) as Hi.
  { destruct (includes (path event) (str "download")) eqn:E; [|reflexivity].
    exfalso. apply Hd. apply includes_spec. exact E. }
  unfold handler. rewrite Hi, respond_run.
  unfold image_flow, mbind, M_bind, mret, M_ret. rewrite Hs, Hp.
  eexists. split; [reflexivity|]. cbn [fst snd].
  split; [reflexivity|]. split; [reflexivity|]. split; [reflexivity|].
  intros Hh. unfold success_response, custom_headers. rewrite Hh.
  cbn [Response.headers].
  assert (getResponseHeaders env false (isAlb_of event)
            !! str "Content-Disposition" = None) as Hn.
  { unfold getResponseHeaders.
    destruct (negb _), (bool_decide _); lookup_headers; reflexivity. }
  revert Hn. generalize (getResponseHeaders env false (isAlb_of event)).
  intros h Hn. repeat split; lookup_headers; try reflexivity. exact Hn.
Qed.

Lemma handler_image_success_witness :
  (~ contains_download (event_of (str "/fit-in/100x100/cat.png")) /\
   headers request_png = None) /\
  exists response : Response.t,
    handler env_one_bucket store_empty image_setup_ok image_process_ok
      (event_of (str "/fit-in/100x100/cat.png")) world0
    = (Ok response, world0) /\
    Response.body response = str "iVBORw0KGgo=" /\
    Response.headers response !! str "Content-Type"
    = Some (JStr (str "image/png")) /\
    Response.headers response !! str "Content-Disposition" = None.
Proof.
  assert (~ contains_download (event_of (str "/fit-in/100x100/cat.png"))) as Hd.
  { unfold contains_download. rewrite <- includes_spec. vm_compute. discriminate. }
  split; [split; [exact Hd | reflexivity]|].
  destruct (handler_image_success env_one_bucket store_empty image_setup_ok
              image_process_ok (event_of (str "/fit-in/100x100/cat.png"))
              world0 world0 world0 request_png (str "iVBORw0KGgo=")
              Hd eq_refl eq_refl)
    as [response [H [_ [_ [Hb Hh]]]]].
  destruct (Hh eq_refl) as [Hct [_ Hcd]].
  exists response. repeat split; assumption.
Defined.

(** ** The guard of the fallback image, in full *)

Lemma env_nonblank_iff (o : option jsstring) :
  env_nonblank o = true <->
  exists s : jsstring, o = Some s /\ remove_first_space s <> [].
Proof.
  unfold env_nonblank. destruct o as [s|].
  - unfold replace. rewrite replace_space_first, andb_true_iff, negb_true_iff,
      bool_decide_eq_false. split.
    + intros [_ H]. exists s. split; [reflexivity | exact H].
    + intros [s' [E H]]. injection E as <-. split; [|exact H].
      destruct s; [exfalso; apply H; reflexivity | reflexivity].
  - split; [discriminate | intros [s [E _]]; discriminate E].
Qed.

(** X16. The fallback image is tried exactly when
    [ENABLE_DEFAULT_FALLBACK_IMAGE] is [Yes] and the bucket and the key are
    each set and not empty once their first white space character is taken
    out. *)
Theorem fallback_enabled_iff (env : Env) :
  fallback_enabled env = true <->
  ENABLE_DEFAULT_FALLBACK_IMAGE env = Some (str "Yes") /\
  (exists b : jsstring,
     DEFAULT_FALLBACK_IMAGE_BUCKET env = Some b /\ remove_first_space b <> []) /\
  (exists k : jsstring,
     DEFAULT_FALLBACK_IMAGE_KEY env = Some k /\ remove_first_space k <> []).
Proof.
  unfold fallback_enabled.
  rewrite !andb_true_iff, !env_nonblank_iff, bool_decide_eq_true.
  assert (env_val (ENABLE_DEFAULT_FALLBACK_IMAGE env) = JStr (str "Yes")
          <-> ENABLE_DEFAULT_FALLBACK_IMAGE env = Some (str "Yes")) as ->.
  { destruct (ENABLE_DEFAULT_FALLBACK_IMAGE env); simpl; split; congruence. }
  tauto.
Qed.

(** X17. When the flow fails and the fallback image is found, the response
    carries the content type and the last-modified value of that image, and
    the store has been asked for it once, after the flow. *)
Theorem handler_fallback_headers (env : Env) (s3 : S3.client)
    (imageRequest_setup : Event -> M Request)
    (imageHandler_process : Request -> M jsstring)
    (event : Event) (w w1 : world) (err : thrown) (img : S3.object) :
  chosen_flow env s3 imageRequest_setup imageHandler_process event w
  = (Throw err, w1) ->
  fallback_enabled env = true ->
  s3 (fallback_bucket env) (fallback_key env) = inl img ->
  exists (response : Response.t) (w' : world),
    handler env s3 imageRequest_setup imageHandler_process event w
    = (Ok response, w') /\
    calls w' = (fallback_bucket env, fallback_key env) :: calls w1 /\
    Response.headers response !! str "Content-Type"
    = Some (S3.ContentType img) /\
    Response.headers response !! str "Last-Modified"
    = Some (S3.LastModified img).
Proof.
  intros Hflow En Es. unfold handler. rewrite respond_run.
  unfold chosen_flow in Hflow. rewrite Hflow, fallback_response_run, En, Es.
  eexists _, _. split; [reflexivity|]. split; [reflexivity|].
  cbn [Response.headers].
  generalize (getResponseHeaders env false (isAlb_of event)). intros h.
  split; lookup_headers; reflexivity.
Qed.

Lemma handler_fallback_headers_witness :
  (chosen_flow env_fallback store_report image_setup_fails image_process_fails
     (event_of (str "/fit-in/100x100/cat.png")) world0
   = (Throw (ErrorInst (str "image flow")), world0) /\
   fallback_enabled env_fallback = true) /\
  exists (response : Response.t) (w' : world),
    handler env_fallback store_report image_setup_fails image_process_fails
      (event_of (str "/fit-in/100x100/cat.png")) world0
    = (Ok response, w') /\
    calls w' = [(JStr (str "assets"), JStr (str "fallback.png"))] /\
    Response.headers response !! str "Content-Type"
    = Some (JStr (str "text/csv")).
Proof.
  split; [split; reflexivity|].
  destruct (handler_fallback_headers env_fallback store_report
              image_setup_fails image_process_fails
              (event_of (str "/fit-in/100x100/cat.png")) world0 world0
              (ErrorInst (str "image flow")) report_csv
              eq_refl eq_refl eq_refl)
    as [response [w' [H [Hc [Hct _]]]]].
  exists response, w'. repeat split; assumption.
Defined.
